(** * book-boilerplate: the markdown transformation core

    A shallow embedding of the three text stages of the build pipeline
    ([devops/merge.py], [devops/entitize.py], [devops/customize.py]) and the
    properties of the specification that concern them.

    Python [str] values are sequences of Unicode code points; they are
    embedded as lists of [N].  Text is taken as Python sees it after
    [f.read()] and before [f.write()]. *)

From Stdlib Require Import NArith Ascii String.
From stdpp Require Import base list gmap sorting.

Local Open Scope N_scope.

(** ** Python string primitives *)

Module Py.

Abbreviation str := (list N) (only parsing).

(** ASCII literals: [u "abc"] is the Python string ['abc']. *)
Fixpoint u (s : string) : str :=
  match s with
  | EmptyString => []
  | String a s' => N_of_ascii a :: u s'
  end.
Arguments u _%_string : simpl never.

(** [str.isspace] on one code point: the characters [str.strip()] removes. *)
Definition isspace (c : N) : bool :=
  ((0x09 <=? c) && (c <=? 0x0d)) || ((0x1c <=? c) && (c <=? 0x20))
  || (c =? 0x85) || (c =? 0xa0) || (c =? 0x1680)
  || ((0x2000 <=? c) && (c <=? 0x200a))
  || (c =? 0x2028) || (c =? 0x2029) || (c =? 0x202f) || (c =? 0x205f)
  || (c =? 0x3000).

Fixpoint lstrip (s : str) : str :=
  match s with
  | [] => []
  | c :: s' => if isspace c then lstrip s' else s
  end.

Definition rstrip (s : str) : str := reverse (lstrip (reverse s)).

(** [s.strip()] *)
Definition strip (s : str) : str := rstrip (lstrip s).

(** [s.startswith(prefix)] *)
Fixpoint startswith (s prefix : str) {struct prefix} : bool :=
  match prefix, s with
  | [], _ => true
  | p :: ps, c :: cs => (c =? p) && startswith cs ps
  | _ :: _, [] => false
  end.

(** [s.endswith(suffix)] *)
Definition endswith (s suffix : str) : bool :=
  startswith (reverse s) (reverse suffix).

(** [sep.join(parts)] *)
Fixpoint join (sep : str) (parts : list str) : str :=
  match parts with
  | [] => []
  | [p] => p
  | p :: ps => p ++ sep ++ join sep ps
  end.

(** [s.split('\n')]: never empty, [''.split('\n') == ['']]. *)
Fixpoint split_nl (s : str) : list str :=
  match s with
  | [] => [[]]
  | c :: s' =>
      if c =? 0x0a then [] :: split_nl s'
      else match split_nl s' with
           | l :: ls => (c :: l) :: ls
           | [] => [[c]]
           end
  end.

(** A line as [split('\n')] yields it: no line feed in it. *)
Definition no_newline (l : list N) : Prop := 0x0a ∉ l.

(** The line boundaries of [str.splitlines]. *)
Definition is_linebreak (c : N) : bool :=
  ((0x0a <=? c) && (c <=? 0x0d)) || ((0x1c <=? c) && (c <=? 0x1e))
  || (c =? 0x85) || (c =? 0x2028) || (c =? 0x2029).

(** [s.splitlines(keepends=True)]: every line keeps its terminator, and
    ['\r\n'] is one terminator. *)
Fixpoint splitlines_keepends (s : str) : list str :=
  match s with
  | [] => []
  | c :: s' =>
      if is_linebreak c && negb ((c =? 0x0d) && startswith s' [0x0a])
      then [c] :: splitlines_keepends s'
      else match splitlines_keepends s' with
           | l :: ls => (c :: l) :: ls
           | [] => [[c]]
           end
  end.

(** Truthiness of a string: [if s:]. *)
Definition truthy (s : str) : bool :=
  match s with [] => false | _ :: _ => true end.

End Py.

Import Py.

(** ** Entity Substituter ([devops/entitize.py]) *)

Module Entitize.

(** [[a-zA-Z]] *)
Definition is_alpha (c : N) : bool :=
  ((0x41 <=? c) && (c <=? 0x5a)) || ((0x61 <=? c) && (c <=? 0x7a)).

(** [[a-zA-Z0-9_]] *)
Definition is_word (c : N) : bool :=
  is_alpha c || ((0x30 <=? c) && (c <=? 0x39)) || (c =? 0x5f).

(** A match object of the pattern: [group(0)] is the matched text,
    [group(1)] the entity name. *)
Record Match := { group0 : str; group1 : str }.

Fixpoint take_word (s : str) : str :=
  match s with
  | c :: s' => if is_word c then c :: take_word s' else []
  | [] => []
  end.

Fixpoint drop_word (s : str) : str :=
  match s with
  | c :: s' => if is_word c then drop_word s' else s
  | [] => []
  end.

(** The pattern [& ( [a-zA-Z] [a-zA-Z0-9_]* ) ;] (written here with spaces
    between its tokens) tried at the head of [s].
    The star is greedy and [;] is not a word character, so the only
    candidate is the longest run of word characters. *)
Definition match_entity (s : str) : option Match :=
  match s with
  | a :: c :: t =>
      if (a =? 0x26) && is_alpha c then
        match drop_word t with
        | z :: _ =>
            if z =? 0x3b
            then Some (Build_Match (a :: c :: take_word t ++ [z])
                                   (c :: take_word t))
            else None
        | [] => None
        end
      else None
  | _ => None
  end.

(** The callback [replace_entity(match)] of [replace_entities]. *)
Definition replace_entity (entities : gmap (list N) (list N)) (m : Match)
  : str :=
  match entities !! group1 m with
  | Some e => e
  | None => group0 m
  end.

(** [re.sub(pattern, repl, s)] for the entity pattern: left to right, at each
    position either the pattern matches, the callback's result is emitted and
    the scan resumes after the match ([skip] counts the matched characters
    still to pass), or the character is copied. *)
Fixpoint re_sub_entity (repl : Match -> str) (skip : nat) (s : str) : str :=
  match s with
  | [] => []
  | c :: s' =>
      match skip with
      | S k => re_sub_entity repl k s'
      | O =>
          match match_entity s with
          | Some m => repl m ++ re_sub_entity repl (length (group0 m) - 1) s'
          | None => c :: re_sub_entity repl 0 s'
          end
      end
  end.

Definition replace_entities (content : str)
  (entities : gmap (list N) (list N)) : str :=
  re_sub_entity (replace_entity entities) 0 content.

(** An identifier: a letter followed by letters, digits and underscores. *)
Definition is_identifier (n : str) : bool :=
  match n with
  | c :: t => is_alpha c && forallb is_word t
  | [] => false
  end.

(** The reference [&n;]. *)
Definition entity_ref (n : str) : str := 0x26 :: n ++ [0x3b].

End Entitize.

(** ** Merger ([devops/merge.py]) *)

Module Merge.

(** [next_line.strip() and all(c in mark for c in next_line.strip())] for a
    one-character [mark]. *)
Definition is_underline (mark : N) (next_line : str) : bool :=
  truthy (strip next_line) && forallb (N.eqb mark) (strip next_line).

(** The [while] loop of [demote_headers] over [lines[i:]]: one step consumes
    the line at [i], and the underline at [i + 1] with it when it converts a
    setext heading. *)
Fixpoint demote_lines (lines : list str) : list str :=
  match lines with
  | [] => []
  | line :: rest =>
      if startswith (strip line) (u "#") then
        (u "#" ++ line) :: demote_lines rest
      else
        match rest with
        | next_line :: rest' =>
            if is_underline 0x3d next_line then
              (u "## " ++ line) :: [] :: demote_lines rest'
            else if is_underline 0x2d next_line then
              (u "### " ++ line) :: [] :: demote_lines rest'
            else line :: demote_lines rest
        | [] => line :: demote_lines rest
        end
  end.

Definition demote_headers (content : str) : str :=
  join [0x0a] (demote_lines (split_nl content)).

(** *** Files

    A path is its list of components.  The file system maps a directory to
    its entries; an entry is a text file or something whose [open]/[read]
    raises (a directory, undecodable bytes).  Creating directories and
    writing are taken to succeed; logging is not modelled. *)

Inductive entry := File (content : list N) | Unreadable.

Abbreviation Path := (list (list N)) (only parsing).
Abbreviation directory := (gmap (list N) entry) (only parsing).
Abbreviation filesystem := (gmap (list (list N)) (gmap (list N) entry))
  (only parsing).

(** Comparison of strings by code points, as [sorted] compares the paths of
    one directory. *)
Fixpoint str_leb (a b : str) : bool :=
  match a, b with
  | [], _ => true
  | _ :: _, [] => false
  | x :: a', y :: b' => (x <? y) || ((x =? y) && str_leb a' b')
  end.

Definition str_le (a b : list N) : Prop := str_leb a b = true.

#[global] Instance str_le_dec : RelDecision str_le :=
  fun a b => decide (str_leb a b = true).

Definition sorted (names : list str) : list str := merge_sort str_le names.

(** [volume_input_dir.glob('*.md')], in the directory's own order. *)
Definition glob_md (d : directory) : list str :=
  List.filter (fun name => endswith name (u ".md")) (map_to_list d).*1.

(** [output_dir.mkdir(parents=True, exist_ok=True)] *)
Definition ensure_dir (fs : filesystem) (p : Path) : filesystem :=
  match fs !! p with
  | Some _ => fs
  | None => <[p := ∅]> fs
  end.

Definition mkdir_parents (p : Path) (fs : filesystem) : filesystem :=
  foldl ensure_dir fs (map (fun k => take k p) (seq 0 (S (length p)))).

(** [open(dir / name, 'w').write(content)] *)
Definition write_text (dir : Path) (name content : str) (fs : filesystem)
  : filesystem :=
  <[dir := <[name := File content]> (default ∅ (fs !! dir))]> fs.

(** What is at [dir / name], and the text of a file of a directory. *)
Definition read_text (fs : filesystem) (dir : Path) (name : str)
  : option entry :=
  match fs !! dir with
  | Some d => d !! name
  | None => None
  end.

Definition file_text (d : directory) (name : str) : str :=
  match d !! name with
  | Some (File content) => content
  | _ => []
  end.

Record volume_config := {
  title : option (list N);
  input_name : option (list N)
}.

(** The [for md_file in md_files] loop: read, demote, append.  [None] when a
    read raises. *)
Fixpoint read_demoted (d : directory) (md_files : list str)
  : option (list str) :=
  match md_files with
  | [] => Some []
  | md_file :: rest =>
      match d !! md_file with
      | Some (File content) =>
          match read_demoted d rest with
          | Some demoted => Some (demote_headers content :: demoted)
          | None => None
          end
      | _ => None
      end
  end.

(** [input_dir / input_name] *)
Definition volume_input_dir (volume_name : str) (cfg : volume_config)
  (input_dir : Path) : Path :=
  input_dir ++ [default volume_name (input_name cfg)].

(** [sorted([f for f in dir.glob('*.md') if not f.name.endswith('.tmp.md')])] *)
Definition md_files (d : directory) : list str :=
  sorted (List.filter (fun f => negb (endswith f (u ".tmp.md"))) (glob_md d)).

(** The files [merge_volume] takes: [*.md] but not [*.tmp.md]. *)
Definition eligible (f : str) : bool :=
  endswith f (u ".md") && negb (endswith f (u ".tmp.md")).

(** [merge_volume]: the file system afterwards, or [None] when an exception
    leaves the function (nothing has been written by then). *)
Definition merge_volume (volume_name : str) (cfg : volume_config)
  (input_dir output_dir : Path) (fs : filesystem) : option filesystem :=
  let title := default volume_name (title cfg) in
  match fs !! volume_input_dir volume_name cfg input_dir with
  | None => Some fs
  | Some d =>
      match md_files d with
      | [] => Some fs
      | _ :: _ =>
          match read_demoted d (md_files d) with
          | None => None
          | Some demoted =>
              let merged_content := (u "# " ++ title ++ [0x0a]) :: demoted in
              let final_content := join [0x0a; 0x0a] merged_content in
              Some (write_text output_dir (volume_name ++ u ".md")
                      final_content (mkdir_parents output_dir fs))
          end
      end
  end.

(** [volumes[name]] / [name in volumes] on the ordered mapping. *)
Fixpoint lookup_volume (name : str) (volumes : list (list N * volume_config))
  : option volume_config :=
  match volumes with
  | [] => None
  | (k, v) :: rest =>
      if bool_decide (k = name) then Some v else lookup_volume name rest
  end.

(** The loop over [volumes.items()]; the flag tells whether it ran to its
    end ([false]: an exception left it). *)
Fixpoint merge_volumes (volumes : list (list N * volume_config))
  (input_dir output_dir : Path) (fs : filesystem) : filesystem * bool :=
  match volumes with
  | [] => (fs, true)
  | (volume_name, cfg) :: rest =>
      match merge_volume volume_name cfg input_dir output_dir fs with
      | Some fs' => merge_volumes rest input_dir output_dir fs'
      | None => (fs, false)
      end
  end.

Record parsed_args := {
  volume : option (list N);
  output : option (list (list N));
  input : option (list (list N))
}.

(** [main]: exit code and file system.  [config] is [None] when the
    configuration file does not exist, and else the mapping
    [config.get('volumes', {})] read from it. *)
Definition main (config : option (list (list N * volume_config)))
  (args : parsed_args) (cwd : Path) (fs : filesystem) : N * filesystem :=
  match config with
  | None => (1, fs)
  | Some volumes =>
      let input_dir := default cwd (input args) in
      let output_dir := default cwd (output args) in
      match volumes with
      | [] => (1, fs)
      | _ :: _ =>
          if truthy (default [] (volume args)) then
            let v := default [] (volume args) in
            match lookup_volume v volumes with
            | None => (1, fs)
            | Some cfg =>
                match merge_volume v cfg input_dir output_dir fs with
                | Some fs' => (0, fs')
                | None => (1, fs)
                end
            end
          else
            match merge_volumes volumes input_dir output_dir fs with
            | (fs', true) => (0, fs')
            | (fs', false) => (1, fs')
            end
      end
  end.

End Merge.

(** ** Style Customizer ([devops/customize.py]) *)

Module Customize.

(** One entry of a style's [patterns] list; [None] is a missing key. *)
Record pattern_def := {
  pattern : option (list N);
  replacement : option (list N)
}.

(** [styles_config.get('styles', {})]: style name to its [patterns], in
    declaration order. *)
Abbreviation styles_config := (list (list N * list pattern_def))
  (only parsing).

(** The loop state of [process_file]. *)
Record scan_state := {
  out_lines : list (list N);
  buffer : list (list N);
  in_fenced : bool
}.

Definition initial : scan_state :=
  {| out_lines := []; buffer := []; in_fenced := false |}.

(** The state with [front] put before the lines already emitted. *)
Definition prepend (front : list (list N)) (st : scan_state) : scan_state :=
  {| out_lines := front ++ out_lines st;
     buffer := buffer st;
     in_fenced := in_fenced st |}.

Section Engine.

(** [re_sub pattern repl string] is
    [re.sub(pattern, repl, string, flags=re.MULTILINE)]; [None] when it
    raises [re.error]. *)
Variable re_sub : list N -> list N -> list N -> option (list N).

Definition apply_pattern (content : str) (pattern_def : pattern_def) : str :=
  let pattern := default [] (pattern pattern_def) in
  let replacement := default [] (replacement pattern_def) in
  if truthy pattern && truthy replacement then
    match re_sub pattern replacement content with
    | Some content' => content'
    | None => content
    end
  else content.

Definition apply_styles (content : str) (styles : styles_config) : str :=
  foldl (fun content style => foldl apply_pattern content (snd style))
    content styles.

(** [if buffer: out_lines.append(apply_styles(''.join(buffer), ...))] *)
Definition flush (styles : styles_config) (st : scan_state) : list str :=
  match buffer st with
  | [] => out_lines st
  | _ :: _ => out_lines st ++ [apply_styles (concat (buffer st)) styles]
  end.

(** One iteration of [for line in lines]. *)
Definition step (styles : styles_config) (st : scan_state) (line : str)
  : scan_state :=
  let stripped := strip line in
  if negb (in_fenced st) && startswith stripped (u ":::") then
    {| out_lines := flush styles st ++ [line];
       buffer := [];
       in_fenced := true |}
  else if in_fenced st then
    {| out_lines := out_lines st ++ [line];
       buffer := buffer st;
       in_fenced := negb (bool_decide (stripped = u ":::")) |}
  else
    {| out_lines := out_lines st;
       buffer := buffer st ++ [line];
       in_fenced := in_fenced st |}.

Definition scan (styles : styles_config) (st : scan_state)
  (lines : list str) : scan_state :=
  foldl (step styles) st lines.

(** The loop, the final flush and [''.join(out_lines)]. *)
Definition process_lines (styles : styles_config) (lines : list str) : str :=
  concat (flush styles (scan styles initial lines)).

(** [process_file]: the text written to [output_dir / input_file.name] for
    the text read from [input_file]. *)
Definition process_file (content : str) (styles : styles_config) : str :=
  process_lines styles (splitlines_keepends content).

(** The specification's wording: every valid rule, once, in declaration
    order, on the whole text. *)
Definition valid_rule (pd : pattern_def) : bool :=
  truthy (default [] (pattern pd)) && truthy (default [] (replacement pd)).

Definition substitute (content : str) (pd : pattern_def) : str :=
  default content
    (re_sub (default [] (pattern pd)) (default [] (replacement pd)) content).

Definition rules_applied_directly (content : str) (styles : styles_config)
  : str :=
  foldl substitute content
    (List.filter valid_rule (concat (map snd styles))).

End Engine.

(** A line that opens a fence when met outside one, and a line that closes
    the fence it is met in. *)
Definition opens_fence (line : str) : bool :=
  startswith (strip line) (u ":::").

Definition closes_fence (line : str) : bool :=
  bool_decide (strip line = u ":::").

(** The fence automaton on its own: [OUTSIDE] is [false], [INSIDE] is
    [true]. *)
Definition fence_step (inside : bool) (line : str) : bool :=
  if negb inside && opens_fence line then true
  else if inside then negb (closes_fence line)
  else inside.

Definition fenced_after (lines : list str) : bool :=
  foldl fence_step false lines.

End Customize.

(** ** A reference engine for a fragment of [re.sub]

    Patterns made of literal characters, optionally anchored by a leading
    [^], with a replacement free of backslashes, under [re.MULTILINE].  On
    this fragment the function is [re.sub]; every other pattern or template
    is refused, which says nothing about what Python does with it. *)

Module PyRe.

Definition is_meta (c : N) : bool :=
  existsb (N.eqb c) (u ".^$*+?{}[]\|()").

Definition parse (pattern : str) : option (bool * list N) :=
  match pattern with
  | 0x5e :: lit =>
      if forallb (fun c => negb (is_meta c)) lit then Some (true, lit)
      else None
  | lit =>
      if forallb (fun c => negb (is_meta c)) lit then Some (false, lit)
      else None
  end.

(** The scan of [re.sub]: [bol] tells whether the position is at the start of
    the text or just after a line feed, [skip] counts the characters of the
    last match still to pass.  An empty match is replaced and the next
    character copied. *)
Fixpoint sub_literal (anchored : bool) (lit repl : str) (bol : bool)
  (skip : nat) (s : str) : str :=
  match s with
  | [] =>
      match skip, lit with
      | O, [] => if negb anchored || bol then repl else []
      | _, _ => []
      end
  | c :: s' =>
      match skip with
      | S k => sub_literal anchored lit repl (c =? 0x0a) k s'
      | O =>
          if (negb anchored || bol) && startswith s lit then
            match lit with
            | [] => repl ++ c :: sub_literal anchored lit repl (c =? 0x0a) 0 s'
            | _ :: _ =>
                repl ++ sub_literal anchored lit repl (c =? 0x0a)
                          (length lit - 1) s'
            end
          else c :: sub_literal anchored lit repl (c =? 0x0a) 0 s'
      end
  end.

Definition re_sub (pattern repl content : str) : option (list N) :=
  match parse pattern with
  | Some (anchored, lit) =>
      if forallb (fun c => negb (c =? 0x5c)) repl
      then Some (sub_literal anchored lit repl true 0 content)
      else None
  | None => None
  end.

End PyRe.


(** ** Entity table loading ([load_entities] in [devops/entitize.py]) *)

Module EntitizeLoad.

(** The lines a text file yields when iterated: split after every line
    feed, each line with its terminator. *)
Fixpoint file_lines (s : str) : list str :=
  match s with
  | [] => []
  | c :: s' =>
      if c =? 0x0a then [c] :: file_lines s'
      else match file_lines s' with
           | l :: ls => (c :: l) :: ls
           | [] => [[c]]
           end
  end.

(** [s.split()]: the runs of characters that are not white space; [cur] is
    the run being read. *)
Fixpoint words (cur s : str) : list str :=
  match s with
  | [] => if truthy cur then [cur] else []
  | c :: s' =>
      if isspace c then
        if truthy cur then cur :: words [] s' else words [] s'
      else words (cur ++ [c]) s'
  end.

Definition split (s : str) : list str := words [] s.

(** [chr(n)] for [n >= 0]: the character, [ValueError] above the Unicode
    range, [OverflowError] when [n] does not fit a C [int]. *)
Inductive chr_result := Chr (c : N) | ChrValueError | ChrOverflowError.

Definition chr (n : N) : chr_result :=
  if n <? 0x110000 then Chr n
  else if n <? 0x80000000 then ChrValueError
  else ChrOverflowError.

Section Int.

(** [int16 s] is [int(s, 16)]; [None] when it raises [ValueError]. *)
Variable int16 : list N -> option N.

(** One iteration of [for line in f]: the table afterwards, or [None] when
    an exception other than [ValueError] leaves the loop. *)
Definition load_line (entities : gmap (list N) (list N)) (line : str)
  : option (gmap (list N) (list N)) :=
  let line := strip line in
  if truthy line && negb (startswith line (u "#")) then
    match split line with
    | hex_code :: name :: _ =>
        if startswith hex_code (u "0x") then
          match int16 hex_code with
          | Some n =>
              match chr n with
              | Chr c => Some (<[name := [c]]> entities)
              | ChrValueError => Some entities
              | ChrOverflowError => None
              end
          | None => Some entities
          end
        else Some entities
    | _ => Some entities
    end
  else Some entities.

Fixpoint load_lines (entities : gmap (list N) (list N)) (lines : list str)
  : option (gmap (list N) (list N)) :=
  match lines with
  | [] => Some entities
  | line :: rest =>
      match load_line entities line with
      | Some entities' => load_lines entities' rest
      | None => None
      end
  end.

(** [load_entities] on the text of the definitions file. *)
Definition load_entities (content : str)
  : option (gmap (list N) (list N)) :=
  load_lines ∅ (file_lines content).

(** What a line does to the table, read off the loop body: nothing, or
    bind [name] to the character [c], or abort the load. *)
Inductive line_effect := Ignored | Defines (name : list N) (c : N) | Aborts.

Definition effect_of (line : str) : line_effect :=
  let line := strip line in
  if truthy line && negb (startswith line (u "#")) then
    match split line with
    | hex_code :: name :: _ =>
        if startswith hex_code (u "0x") then
          match int16 hex_code with
          | Some n =>
              match chr n with
              | Chr c => Defines name c
              | ChrValueError => Ignored
              | ChrOverflowError => Aborts
              end
          | None => Ignored
          end
        else Ignored
    | _ => Ignored
    end
  else Ignored.

End Int.

End EntitizeLoad.

(** ** A reference for a fragment of [int(s, 16)]

    Strings made of [0x] or [0X] and at least one ASCII hexadecimal digit.
    On this fragment the function is [int(s, 16)]; every other string is
    refused, which says nothing about what Python does with it (Python also
    takes underscores between digits, other decimal digits, a sign, and no
    prefix). *)

Module PyInt.

Definition hex_digit (c : N) : option N :=
  if (0x30 <=? c) && (c <=? 0x39) then Some (c - 0x30)
  else if (0x61 <=? c) && (c <=? 0x66) then Some (c - 0x61 + 10)
  else if (0x41 <=? c) && (c <=? 0x46) then Some (c - 0x41 + 10)
  else None.

Fixpoint hex_value (acc : N) (digits : str) : option N :=
  match digits with
  | [] => Some acc
  | c :: rest =>
      match hex_digit c with
      | Some d => hex_value (16 * acc + d) rest
      | None => None
      end
  end.

Definition int16 (s : str) : option N :=
  match s with
  | z :: x :: d :: digits =>
      if (z =? 0x30) && ((x =? 0x78) || (x =? 0x58))
      then hex_value 0 (d :: digits)
      else None
  | _ => None
  end.

End PyInt.

(** ** Reading and writing single files

    A file is named by its directory and its name.  On top of the file
    system of the Merger: a path exists when the directory has an entry of
    that name; reading anything but a text file raises; writing encodes the
    text as UTF-8, which raises on a lone surrogate after the file has been
    created or emptied.

    The text of a file is the text a read returns, as the Merger takes it.
    Files are opened in text mode with the default [newline]: a read turns
    every [\r\n] and every other [\r] into [\n], and a write leaves [\n] as
    it is (POSIX).  So a write stores the text with its carriage returns
    translated, which is what the next read returns. *)

Module Files.
Import Merge.

(** [path.exists()] *)
Definition exists_file (fs : filesystem) (f : list (list N) * list N)
  : bool :=
  match read_text fs f.1 f.2 with
  | Some _ => true
  | None => false
  end.

(** [open(path, 'r', encoding='utf-8').read()]; [None] when it raises. *)
Definition open_read (fs : filesystem) (f : list (list N) * list N)
  : option (list N) :=
  match read_text fs f.1 f.2 with
  | Some (File content) => Some content
  | _ => None
  end.

Definition encodable (content : str) : bool :=
  forallb (fun c => negb ((0xd800 <=? c) && (c <=? 0xdfff))) content.

(** What text mode reads back from the characters [s]. *)
Fixpoint universal_newlines (s : str) : str :=
  match s with
  | [] => []
  | c :: s' =>
      if c =? 0x0d then
        0x0a :: match s' with
                | c' :: s'' =>
                    if c' =? 0x0a then universal_newlines s''
                    else universal_newlines s'
                | [] => []
                end
      else c :: universal_newlines s'
  end.

(** [open(path, 'w', encoding='utf-8').write(content)]; the flag is [false]
    when it raises. *)
Definition open_write (f : list (list N) * list N) (content : str)
  (fs : filesystem) : filesystem * bool :=
  if encodable content then
    (write_text f.1 f.2 (universal_newlines content) fs, true)
  else (write_text f.1 f.2 [] fs, false).

End Files.

(** ** Entity Substituter: files ([process_file], [main] in
    [devops/entitize.py]) *)

Module EntitizeIO.
Import Merge Files.

(** [process_file]: the file system afterwards and the path written, [None]
    when an exception leaves the function. *)
Definition process_file (input_file : list (list N) * list N)
  (output_dir : Path) (entities : gmap (list N) (list N))
  (fs : filesystem) : filesystem * option (list (list N) * list N) :=
  match open_read fs input_file with
  | None => (fs, None)
  | Some content =>
      let processed_content := Entitize.replace_entities content entities in
      let fs := mkdir_parents output_dir fs in
      let output_file := (output_dir, input_file.2) in
      match open_write output_file processed_content fs with
      | (fs, true) => (fs, Some output_file)
      | (fs, false) => (fs, None)
      end
  end.

(** The loop [for file_path in parsed_args.files]; the flag is [false] when
    an exception left it. *)
Fixpoint process_files (entities : gmap (list N) (list N))
  (output_dir : Path) (files : list (list (list N) * list N))
  (fs : filesystem) : filesystem * bool :=
  match files with
  | [] => (fs, true)
  | input_file :: rest =>
      if exists_file fs input_file then
        match process_file input_file output_dir entities fs with
        | (fs, Some _) => process_files entities output_dir rest fs
        | (fs, None) => (fs, false)
        end
      else process_files entities output_dir rest fs
  end.

Record parsed_args := {
  entities_file : list (list N) * list N;
  files : list (list (list N) * list N);
  output : option (list (list N))
}.

Section Int.

Variable int16 : list N -> option N.

(** [main]: exit code and file system. *)
Definition main (args : parsed_args) (cwd : Path) (fs : filesystem)
  : N * filesystem :=
  if exists_file fs (entities_file args) then
    match open_read fs (entities_file args) with
    | None => (1, fs)
    | Some text =>
        match EntitizeLoad.load_entities int16 text with
        | None => (1, fs)
        | Some entities =>
            let output_dir := default cwd (output args) in
            match process_files entities output_dir (files args) fs with
            | (fs, true) => (0, fs)
            | (fs, false) => (1, fs)
            end
        end
    end
  else (1, fs).

End Int.

End EntitizeIO.

(** ** Style Customizer: files ([process_file], [main] in
    [devops/customize.py]) *)

Module CustomizeIO.
Import Merge Files.

Record parsed_args := {
  files : list (list (list N) * list N);
  output : option (list (list N))
}.

Section Engine.

Variable re_sub : list N -> list N -> list N -> option (list N).

Definition process_file (input_file : list (list N) * list N)
  (output_dir : Path) (styles_config : list (list N * list Customize.pattern_def))
  (fs : filesystem) : filesystem * option (list (list N) * list N) :=
  match open_read fs input_file with
  | None => (fs, None)
  | Some content =>
      let processed_content :=
        Customize.process_file re_sub content styles_config in
      let fs := mkdir_parents output_dir fs in
      let output_file := (output_dir, input_file.2) in
      match open_write output_file processed_content fs with
      | (fs, true) => (fs, Some output_file)
      | (fs, false) => (fs, None)
      end
  end.

Fixpoint process_files
  (styles_config : list (list N * list Customize.pattern_def))
  (output_dir : Path) (files : list (list (list N) * list N))
  (fs : filesystem) : filesystem * bool :=
  match files with
  | [] => (fs, true)
  | input_file :: rest =>
      if exists_file fs input_file then
        match process_file input_file output_dir styles_config fs with
        | (fs, Some _) => process_files styles_config output_dir rest fs
        | (fs, None) => (fs, false)
        end
      else process_files styles_config output_dir rest fs
  end.

(** [main]: exit code and file system.  [styles] is [None] when the styles
    file does not exist, and else the mapping read from it. *)
Definition main
  (styles : option (list (list N * list Customize.pattern_def)))
  (args : parsed_args) (cwd : Path) (fs : filesystem) : N * filesystem :=
  match styles with
  | None => (1, fs)
  | Some styles_config =>
      let output_dir := default cwd (output args) in
      match process_files styles_config output_dir (files args) fs with
      | (fs, true) => (0, fs)
      | (fs, false) => (1, fs)
      end
  end.

End Engine.

End CustomizeIO.

(** ** The pipeline ([main] in [devops/build_books.py]) *)

Module BuildBooks.
Import Merge Files.

Record parsed_args := {
  vol : option (list N);
  output : list (list N);
  temp : list (list N)
}.

Section Tools.

Variable int16 : list N -> option N.
Variable re_sub : list N -> list N -> list N -> option (list N).

(** [build_main vol input_dir output_dir] is [build.main] called with the
    configuration file, [--input], [--output] and, when [vol] is given,
    [-vol]: pandoc and LibreOffice at work. *)
Variable build_main :
  option (list N) -> list (list N) -> list (list N) ->
  gmap (list (list N)) (gmap (list N) entry) ->
  N * gmap (list (list N)) (gmap (list N) entry).

(** The files a stage hands to the next one: the volume's file if it
    exists, or every [*.md] of the directory. *)
Definition stage_files (vol : option (list N)) (dir : Path)
  (fs : filesystem) : list (list (list N) * list N) :=
  match vol with
  | Some v =>
      if exists_file fs (dir, v ++ u ".md") then [(dir, v ++ u ".md")]
      else []
  | None => map (pair dir) (glob_md (default ∅ (fs !! dir)))
  end.

(** [main]: exit code and file system.  [config] and [styles] are what the
    two YAML files hold ([None]: the file does not exist). *)
Definition main (config : option (list (list N * volume_config)))
  (styles : option (list (list N * list Customize.pattern_def)))
  (entities_file : list (list N) * list N)
  (args : parsed_args) (cwd : Path) (fs : filesystem) : N * filesystem :=
  let current_dir := cwd in
  let obj_dir := temp args in
  let fs := mkdir_parents obj_dir fs in
  let unicode_dir := obj_dir ++ [u "unicode"] in
  let custom_dir := obj_dir ++ [u "custom"] in
  let final_output_dir := output args in
  let fs := mkdir_parents final_output_dir fs in
  let vol := if truthy (default [] (vol args)) then vol args else None in
  let merge_args :=
    {| Merge.volume := vol; Merge.output := Some obj_dir;
       Merge.input := Some current_dir |} in
  let (merged, fs) := Merge.main config merge_args cwd fs in
  if negb (merged =? 0) then (1, fs) else
  match stage_files vol obj_dir fs with
  | [] => (1, fs)
  | (_ :: _) as merged_files =>
  let entitize_args :=
    {| EntitizeIO.entities_file := entities_file;
       EntitizeIO.files := merged_files;
       EntitizeIO.output := Some unicode_dir |} in
  let (entitized, fs) := EntitizeIO.main int16 entitize_args cwd fs in
  if negb (entitized =? 0) then (1, fs) else
  match stage_files vol unicode_dir fs with
  | [] => (1, fs)
  | (_ :: _) as unicode_files =>
  let customize_args :=
    {| CustomizeIO.files := unicode_files;
       CustomizeIO.output := Some custom_dir |} in
  let (customized, fs) := CustomizeIO.main re_sub styles customize_args cwd fs in
  if negb (customized =? 0) then (1, fs) else
  let (built, fs) := build_main vol custom_dir final_output_dir fs in
  if negb (built =? 0) then (1, fs) else
  (0, fs)
  end
  end.

End Tools.

End BuildBooks.

(** ** Relations used to state properties of the stages *)

Module Shape.
Import Merge.

(** What [demote_headers] may make of one line: a [#] line gets one more
    [#]; any other line is kept, or becomes a [## ] or [### ] heading when
    an underline follows it, or becomes empty when it is the underline
    taken with the line before it. *)
Definition demoted_from (line out : list N) : Prop :=
  (startswith (strip line) (u "#") = true ∧ out = u "#" ++ line)
  ∨ (startswith (strip line) (u "#") = false
     ∧ (out = line ∨ out = u "## " ++ line ∨ out = u "### " ++ line))
  ∨ ((is_underline 0x3d line = true ∨ is_underline 0x2d line = true)
     ∧ out = []).

(** The text [merge_volume] writes for a volume whose directory is [d]. *)
Definition merged_text (volume_name : list N) (cfg : volume_config)
  (d : gmap (list N) entry) : list N :=
  join [0x0a; 0x0a]
    ((u "# " ++ default volume_name (title cfg) ++ [0x0a])
     :: map (fun f => demote_headers (file_text d f)) (md_files d)).

(** A line [demote_headers] has no reason to touch, wherever it stands. *)
Definition plain_line (line : list N) : bool :=
  negb (startswith (strip line) (u "#"))
  && negb (is_underline 0x3d line) && negb (is_underline 0x2d line).

End Shape.

(** ** Sample data *)

Module Sample.
Import Merge Customize.

(** A volume directory with two chapters, a temporary file and a file that
    is not markdown. *)
Definition chapters : gmap (list N) entry :=
  <[u "b.md" := File (u "B" ++ [0x0a] ++ u "===")]>
    (<[u "a.md" := File (u "# A" ++ [0x0a] ++ u "text")]>
       (<[u "notes.tmp.md" := File (u "# draft")]>
          (<[u "c.txt" := File (u "# not markdown")]> ∅))).

Definition book : gmap (list (list N)) (gmap (list N) entry) :=
  {[ [u "book"; u "volume-001"] := chapters ]}.

Definition volume_one : volume_config :=
  {| title := Some (u "One"); input_name := None |}.

Definition volume_two : volume_config :=
  {| title := None; input_name := Some (u "second") |}.

Definition no_args : parsed_args :=
  {| volume := None; output := None; input := None |}.

(** One rule [ab] -> [Z]. *)
Definition ab_to_Z : list (list N * list pattern_def) :=
  [(u "s", [Build_pattern_def (Some (u "ab")) (Some (u "Z"))])].

(** One rule [^] -> [X]: a mark at the start of every line. *)
Definition mark_line_starts : list (list N * list pattern_def) :=
  [(u "s", [Build_pattern_def (Some (u "^")) (Some (u "X"))])].

(** Two styles: [^ab] -> [Z], then [Z] -> [ab!]. *)
Definition anchored_then_back : list (list N * list pattern_def) :=
  [(u "s", [Build_pattern_def (Some (u "^ab")) (Some (u "Z"))]);
   (u "t", [Build_pattern_def (Some (u "Z")) (Some (u "ab!"))])].

(** A rule meant to delete every [b], and a rule [a] -> [Z]. *)
Definition deletion : pattern_def :=
  Build_pattern_def (Some (u "b")) (Some []).

Definition a_to_Z : pattern_def :=
  Build_pattern_def (Some (u "a")) (Some (u "Z")).

(** An entity definitions file: a comment, two definitions of [eacute] (the
    second one counts), a line with too few fields, a code without [0x] and
    a code above the Unicode range. *)
Definition definitions : list N :=
  u "# Latin" ++ [0x0a]
  ++ u "0x0045 eacute" ++ [0x0a]
  ++ [0x0a]
  ++ u "0x00E9 eacute  LATIN SMALL LETTER E WITH ACUTE" ++ [0x0a]
  ++ u "0x26" ++ [0x0a]
  ++ u "00E8 egrave" ++ [0x0a]
  ++ u "0x110000 toobig" ++ [0x0a]
  ++ u "0x26 amp".

(** Two chapter files of the same name in two directories, and a table. *)
Definition two_parts : gmap (list (list N)) (gmap (list N) entry) :=
  <[ [u "one"] := {[ u "ch.md" := File (u "1 &amp; 2") ]} ]>
    (<[ [u "two"] := {[ u "ch.md" := File (u "3 &amp; 4") ]} ]>
       {[ [u "conf"] := {[ u "basic.nam" := File (u "0x26 amp") ]} ]}).

Definition two_parts_args : EntitizeIO.parsed_args :=
  {| EntitizeIO.entities_file := ([u "conf"], u "basic.nam");
     EntitizeIO.files := [([u "one"], u "ch.md"); ([u "zero"], u "ch.md");
                          ([u "two"], u "ch.md")];
     EntitizeIO.output := Some [u "out"] |}.

(** A pipeline run for [volume-001] of [book], with the table and no rule
    but [ab] -> [Z]. *)
Definition library : gmap (list (list N)) (gmap (list N) entry) :=
  <[ [u "conf"] := {[ u "basic.nam" := File (u "0x26 amp") ]} ]>
    {[ [u "book"; u "volume-001"] :=
         {[ u "a.md" := File (u "A &amp; ab") ]} ]}.


Definition all_volumes : BuildBooks.parsed_args :=
  {| BuildBooks.vol := None;
     BuildBooks.output := [u "book"; u "build"];
     BuildBooks.temp := [u "book"; u "obj"] |}.

(** A converter that does nothing and reports success. *)
Definition no_build (vol : option (list N)) (input_dir output_dir : list (list N))
  (fs : gmap (list (list N)) (gmap (list N) entry))
  : N * gmap (list (list N)) (gmap (list N) entry) := (0, fs).

(** A rule whose pattern does not compile: an unclosed group. *)
Definition unclosed_group : pattern_def :=
  Build_pattern_def (Some (u "(")) (Some (u "x")).

(** A volume directory without any file to merge. *)
Definition drafts : gmap (list N) entry :=
  <[u "notes.tmp.md" := File (u "# draft")]>
    (<[u "c.txt" := Unreadable]> ∅).

Definition draft_book : gmap (list (list N)) (gmap (list N) entry) :=
  {[ [u "book"; u "volume-001"] := drafts ]}.

Definition output_obj : parsed_args :=
  {| volume := None; output := Some [u "book"; u "obj"]; input := None |}.

End Sample.

(** * Properties *)

(** ** Entity Substituter *)

Module EntitizeFacts.
Import Entitize.

Lemma is_alpha_amp : is_alpha 0x26 = false.
Proof. reflexivity. Qed.

Lemma is_word_semicolon : is_word 0x3b = false.
Proof. reflexivity. Qed.

Lemma take_drop_word (t : list N) : take_word t ++ drop_word t = t.
Proof.
  induction t as [|c t IH]; simpl; [done|].
  destruct (is_word c); simpl; [by rewrite IH | done].
Qed.

(** A run of word characters stops at the latest at an ampersand. *)
Lemma take_word_app_amp (t rest : list N) :
  take_word (t ++ 0x26 :: rest) = take_word t.
Proof.
  induction t as [|c t IH]; simpl; [done|].
  destruct (is_word c); [by rewrite IH | done].
Qed.

Lemma drop_word_app_amp (t rest : list N) :
  drop_word (t ++ 0x26 :: rest) =
  match drop_word t with
  | [] => 0x26 :: rest
  | z :: r => z :: r ++ 0x26 :: rest
  end.
Proof.
  induction t as [|c t IH]; simpl; [done|].
  destruct (is_word c); [exact IH | done].
Qed.

(** An attempt that starts before an ampersand never reaches past it. *)
Lemma match_entity_app_amp (pre rest : list N) :
  pre ≠ [] → match_entity (pre ++ 0x26 :: rest) = match_entity pre.
Proof.
  intros Hne. destruct pre as [|a [|c t]]; [done| |].
  - simpl. rewrite is_alpha_amp, andb_false_r. done.
  - simpl. destruct ((a =? 0x26) && is_alpha c); [|done].
    rewrite drop_word_app_amp, take_word_app_amp.
    destruct (drop_word t) as [|z r]; simpl; done.
Qed.

Lemma match_entity_length (s : list N) (m : Match) :
  match_entity s = Some m → (length (group0 m) ≤ length s)%nat.
Proof.
  destruct s as [|a [|c t]]; simpl; try done.
  destruct ((a =? 0x26) && is_alpha c); [|done].
  destruct (drop_word t) as [|z r] eqn:Hd; [done|].
  destruct (z =? 0x3b); [|done].
  intros [= <-]. simpl. rewrite length_app. simpl.
  rewrite <- (take_drop_word t) at 2. rewrite Hd, length_app. simpl. lia.
Qed.

(** The scan of a text that is followed by an ampersand does not depend on
    what follows. *)
Lemma re_sub_entity_app_amp (repl : Match → list N) (pre rest : list N) :
  ∀ k : nat, (k ≤ length pre)%nat →
    re_sub_entity repl k (pre ++ 0x26 :: rest) =
    re_sub_entity repl k pre ++ re_sub_entity repl 0 (0x26 :: rest).
Proof.
  induction pre as [|c pre IH]; intros k Hk.
  - simpl in Hk. by replace k with 0%nat by lia.
  - destruct k as [|k].
    + change ((c :: pre) ++ 0x26 :: rest) with (c :: (pre ++ 0x26 :: rest)).
      cbn [re_sub_entity].
      change (c :: (pre ++ 0x26 :: rest)) with ((c :: pre) ++ 0x26 :: rest).
      rewrite match_entity_app_amp by done.
      destruct (match_entity (c :: pre)) as [m|] eqn:Hm.
      * apply match_entity_length in Hm. simpl in Hm.
        rewrite IH by lia. by rewrite app_assoc.
      * rewrite IH by lia. done.
    + simpl in *. apply IH. lia.
Qed.

Lemma re_sub_entity_skip (repl : Match → list N) (a b : list N) :
  re_sub_entity repl (length a) (a ++ b) = re_sub_entity repl 0 b.
Proof. induction a as [|c a IH]; simpl; [by destruct b | exact IH]. Qed.

Lemma take_word_all (t rest : list N) :
  forallb is_word t = true → take_word (t ++ 0x3b :: rest) = t.
Proof.
  induction t as [|c t IH]; simpl; [done|].
  intros [Hc Ht]%andb_prop. rewrite Hc. by rewrite IH.
Qed.

Lemma drop_word_all (t rest : list N) :
  forallb is_word t = true → drop_word (t ++ 0x3b :: rest) = 0x3b :: rest.
Proof.
  induction t as [|c t IH]; simpl; [done|].
  intros [Hc Ht]%andb_prop. rewrite Hc. by apply IH.
Qed.

(** At a reference [&n;] the pattern matches exactly that reference. *)
Lemma match_entity_ref (n post : list N) :
  is_identifier n = true →
  match_entity (entity_ref n ++ post) = Some (Build_Match (entity_ref n) n).
Proof.
  destruct n as [|c t]; [done|]. simpl.
  intros [Hc Ht]%andb_prop. rewrite Hc. simpl.
  rewrite <- app_assoc. simpl.
  rewrite drop_word_all, take_word_all by done. done.
Qed.

(** The substitution is compositional around every reference [&n;]: the
    text before it and the text after it are substituted on their own, and
    the reference becomes whatever the callback returns for it. *)
Lemma replace_entities_ref (entities : gmap (list N) (list N))
  (n pre post : list N) :
  is_identifier n = true →
  replace_entities (pre ++ entity_ref n ++ post) entities =
  replace_entities pre entities
  ++ default (entity_ref n) (entities !! n)
  ++ replace_entities post entities.
Proof.
  intros Hn. unfold replace_entities.
  change (entity_ref n ++ post) with (0x26 :: (n ++ [0x3b]) ++ post).
  rewrite re_sub_entity_app_amp by lia. f_equal.
  change (0x26 :: (n ++ [0x3b]) ++ post) with (entity_ref n ++ post).
  pose proof (match_entity_ref n post Hn) as Hm.
  change (entity_ref n ++ post) with (0x26 :: (n ++ [0x3b]) ++ post) in *.
  cbn [re_sub_entity]. rewrite Hm. cbn [group0].
  replace (replace_entity entities (Build_Match (entity_ref n) n))
    with (default (entity_ref n) (entities !! n))
    by (unfold replace_entity; cbn; by destruct (entities !! n)).
  f_equal.
  replace (length (entity_ref n) - 1)%nat with (length (n ++ [0x3b]))
    by (unfold entity_ref; simpl; lia).
    apply re_sub_entity_skip.
Qed.

(** C3.  For a name [n] of the table, every reference [&n;] in any document
    becomes exactly the table's text for [n]: the output is the substituted
    text before the reference, the table's entry, and the substituted text
    after it, so nothing of the reference remains and the entry itself is
    never scanned again.  In particular [caf&eacute;] becomes [café] with
    [eacute] bound to U+00E9. *)
Theorem known_entity_replaced (entities : gmap (list N) (list N))
  (n e pre post : list N) :
  is_identifier n = true →
  entities !! n = Some e →
  replace_entities (pre ++ entity_ref n ++ post) entities =
    replace_entities pre entities ++ e ++ replace_entities post entities
  ∧ replace_entities (u "caf&eacute;") {[ u "eacute" := [0xe9] ]} =
    u "caf" ++ [0xe9].
Proof.
  intros Hn He. split.
  - rewrite replace_entities_ref by done. by rewrite He.
  - change (u "caf&eacute;") with (u "caf" ++ entity_ref (u "eacute") ++ []).
    rewrite replace_entities_ref by done.
    rewrite lookup_singleton_eq. reflexivity.
Qed.

Lemma known_entity_replaced_witness :
  is_identifier (u "amp") = true
  ∧ ({[ u "amp" := u "&" ]} : gmap (list N) (list N)) !! u "amp"
    = Some (u "&")
  ∧ replace_entities (u "x " ++ entity_ref (u "amp") ++ u "lt;")
      {[ u "amp" := u "&" ]} = u "x &lt;".
Proof.
  split; [reflexivity|]. split; [apply lookup_singleton_eq|].
  refine (eq_trans
    (proj1 (known_entity_replaced {[ u "amp" := u "&" ]} (u "amp") (u "&")
              (u "x ") (u "lt;") eq_refl (lookup_singleton_eq _ _))) _).
  reflexivity.
Defined.

(** C7.  For an identifier [n] that the table does not bind, every reference
    [&n;] in any document is kept as it is, and the text around it is
    substituted as usual. *)
Theorem unknown_entity_preserved (entities : gmap (list N) (list N))
  (n pre post : list N) :
  is_identifier n = true →
  entities !! n = None →
  replace_entities (pre ++ entity_ref n ++ post) entities =
    replace_entities pre entities ++ entity_ref n
    ++ replace_entities post entities.
Proof.
  intros Hn He. rewrite replace_entities_ref by done. by rewrite He.
Qed.

Lemma unknown_entity_preserved_witness :
  is_identifier (u "nope") = true
  ∧ ({[ u "eacute" := [0xe9] ]} : gmap (list N) (list N)) !! u "nope" = None
  ∧ replace_entities (u "a" ++ entity_ref (u "nope") ++ u "&eacute;")
      {[ u "eacute" := [0xe9] ]} = u "a&nope;" ++ [0xe9].
Proof.
  assert (H : ({[ u "eacute" := [0xe9] ]} : gmap (list N) (list N))
                !! u "nope" = None)
    by (apply lookup_singleton_ne; intros Hx; vm_compute in Hx; discriminate).
  split; [reflexivity|]. split; [exact H|].
  refine (eq_trans
    (unknown_entity_preserved {[ u "eacute" := [0xe9] ]} (u "nope")
       (u "a") (u "&eacute;") eq_refl H) _).
  change (u "&eacute;") with ([] ++ entity_ref (u "eacute") ++ []).
  rewrite replace_entities_ref by done.
  rewrite lookup_singleton_eq. reflexivity.
Defined.

End EntitizeFacts.

(** ** Style Customizer *)

Module CustomizeFacts.
Import Customize.

Lemma concat_splitlines_keepends (s : list N) :
  concat (splitlines_keepends s) = s.
Proof.
  induction s as [|c s IH]; [done|]. cbn [splitlines_keepends].
  destruct (is_linebreak c && negb ((c =? 0x0d) && startswith s [0x0a])).
  - simpl. by rewrite IH.
  - destruct (splitlines_keepends s) as [|l ls]; simpl in *; by rewrite <- IH.
Qed.

Lemma splitlines_keepends_nil (s : list N) :
  splitlines_keepends s = [] → s = [].
Proof.
  intros H. rewrite <- (concat_splitlines_keepends s). by rewrite H.
Qed.

Section Engine.

Variable re_sub : list N → list N → list N → option (list N).
Variable styles : list (list N * list pattern_def).

Abbreviation step := (step re_sub styles).
Abbreviation scan := (scan re_sub styles).
Abbreviation flush := (flush re_sub styles).
Abbreviation process_lines := (process_lines re_sub styles).

Lemma flush_prepend front st : flush (prepend front st) = front ++ flush st.
Proof.
  unfold Customize.flush, prepend; simpl.
  destruct (buffer st); [done | by rewrite app_assoc].
Qed.

Lemma step_prepend front st line :
  step (prepend front st) line = prepend front (step st line).
Proof.
  unfold Customize.step. cbn [in_fenced prepend buffer out_lines].
  destruct (negb (in_fenced st) && startswith (strip line) (u ":::")).
  - fold (prepend front st). rewrite flush_prepend.
    unfold prepend; simpl. by rewrite app_assoc.
  - destruct (in_fenced st); unfold prepend; simpl; by rewrite ?app_assoc.
Qed.

(** Lines already emitted are never touched again. *)
Lemma scan_prepend front lines :
  ∀ st, scan (prepend front st) lines = prepend front (scan st lines).
Proof.
  induction lines as [|l lines IH]; intros st; [done|].
  unfold Customize.scan in *. simpl. rewrite step_prepend. apply IH.
Qed.

Lemma scan_app st l1 l2 : scan st (l1 ++ l2) = scan (scan st l1) l2.
Proof. unfold Customize.scan. apply foldl_app. Qed.

Lemma in_fenced_step st line :
  in_fenced (step st line) = fence_step (in_fenced st) line.
Proof.
  unfold Customize.step, fence_step, opens_fence, closes_fence.
  destruct (negb (in_fenced st) && startswith (strip line) (u ":::")); [done|].
  by destruct (in_fenced st).
Qed.

Lemma in_fenced_scan lines :
  ∀ st, in_fenced (scan st lines) = foldl fence_step (in_fenced st) lines.
Proof.
  induction lines as [|l lines IH]; intros st; [done|].
  unfold Customize.scan in *. simpl. rewrite IH. by rewrite in_fenced_step.
Qed.

(** From a fresh state behind [front]: what a scan of [lines] gives. *)
Lemma scan_from front lines :
  scan {| out_lines := front; buffer := []; in_fenced := false |} lines =
  prepend front (scan initial lines).
Proof.
  rewrite <- scan_prepend. unfold prepend, initial; simpl.
  by rewrite app_nil_r.
Qed.

(** Outside a fence, an opening line flushes the buffer and is emitted. *)
Lemma step_opens st line :
  in_fenced st = false → opens_fence line = true →
  step st line =
  {| out_lines := flush st ++ [line]; buffer := []; in_fenced := true |}.
Proof.
  unfold opens_fence, Customize.step. intros -> ->. done.
Qed.

(** Inside a fence, lines that do not close it are emitted as they are. *)
Lemma scan_inside out buf body :
  Forall (fun l => closes_fence l = false) body →
  scan {| out_lines := out; buffer := buf; in_fenced := true |} body =
  {| out_lines := out ++ body; buffer := buf; in_fenced := true |}.
Proof.
  intros Hbody. revert out.
  induction Hbody as [|l body Hl _ IH]; intros out.
  - simpl. by rewrite app_nil_r.
  - unfold Customize.scan in *. simpl. unfold Customize.step at 2.
    cbn [in_fenced out_lines buffer negb andb].
    unfold closes_fence in Hl. rewrite Hl. simpl.
    rewrite IH. by rewrite <- app_assoc.
Qed.

Lemma step_closes out buf line :
  closes_fence line = true →
  step {| out_lines := out; buffer := buf; in_fenced := true |} line =
  {| out_lines := out ++ [line]; buffer := buf; in_fenced := false |}.
Proof.
  unfold closes_fence, Customize.step. intros ->. done.
Qed.

(** Inside a fence the buffer is empty: opening the fence flushed it. *)
Lemma buffer_step_inside st line :
  (in_fenced st = true → buffer st = []) →
  in_fenced (step st line) = true → buffer (step st line) = [].
Proof.
  unfold Customize.step. intros Hinv.
  destruct (negb (in_fenced st) && startswith (strip line) (u ":::"));
    [done|].
  destruct (in_fenced st) eqn:Hst; cbn [in_fenced buffer]; [auto|done].
Qed.

Lemma buffer_scan_inside lines :
  ∀ st, (in_fenced st = true → buffer st = []) →
        in_fenced (scan st lines) = true → buffer (scan st lines) = [].
Proof.
  induction lines as [|l lines IH]; intros st Hinv; [exact Hinv|].
  unfold Customize.scan in *. simpl. apply IH.
  by apply buffer_step_inside.
Qed.

(** The state after a line [o] whose trimmed text starts with [:::], unless
    [o] is the line that closes a fence already open, and after the lines
    that follow it up to the end of the text or the next closing line. *)
Lemma scan_open_fence pre o body :
  opens_fence o = true →
  (fenced_after pre = true → closes_fence o = false) →
  Forall (fun l => closes_fence l = false) body →
  scan initial (pre ++ [o] ++ body) =
  {| out_lines := flush (scan initial pre) ++ [o] ++ body;
     buffer := []; in_fenced := true |}.
Proof.
  intros Ho Hpre Hbody.
  rewrite !scan_app. change (scan (scan initial pre) [o])
    with (step (scan initial pre) o).
  pose proof (in_fenced_scan pre initial) as Hin.
  change (foldl fence_step (in_fenced initial) pre)
    with (fenced_after pre) in Hin.
  destruct (fenced_after pre) eqn:Hf.
  - pose proof (buffer_scan_inside pre initial (fun _ => eq_refl) Hin) as Hb.
    unfold Customize.step, Customize.flush. rewrite Hin, Hb. simpl.
    specialize (Hpre eq_refl). unfold closes_fence in Hpre. rewrite Hpre.
    simpl. rewrite scan_inside by done. by rewrite <- app_assoc.
  - rewrite step_opens by done.
    rewrite scan_inside by done. by rewrite <- app_assoc.
Qed.

(** Without a fence-opening line everything is buffered. *)
Lemma scan_no_fence lines :
  Forall (fun l => opens_fence l = false) lines →
  ∀ buf, scan {| out_lines := []; buffer := buf; in_fenced := false |} lines
         = {| out_lines := []; buffer := buf ++ lines; in_fenced := false |}.
Proof.
  induction 1 as [|l lines Hl _ IH]; intros buf.
  - simpl. by rewrite app_nil_r.
  - unfold Customize.scan in *. simpl. unfold Customize.step at 2.
    cbn [in_fenced out_lines buffer negb andb].
    unfold opens_fence in Hl. rewrite Hl. rewrite IH.
    by rewrite <- app_assoc.
Qed.

Lemma apply_pattern_valid content pd :
  apply_pattern re_sub content pd =
  if valid_rule pd then substitute re_sub content pd else content.
Proof.
  unfold apply_pattern, valid_rule, substitute.
  destruct (truthy (default [] (pattern pd))
            && truthy (default [] (replacement pd))); [|done].
  by destruct (re_sub _ _ content).
Qed.

Lemma foldl_apply_pattern pds :
  ∀ content, foldl (apply_pattern re_sub) content pds =
             foldl (substitute re_sub) content (List.filter valid_rule pds).
Proof.
  induction pds as [|pd pds IH]; intros content; [done|].
  simpl. rewrite IH, apply_pattern_valid. by destruct (valid_rule pd).
Qed.

End Engine.

(** [apply_styles] is the direct application of the valid rules. *)
Lemma apply_styles_direct re_sub styles :
  ∀ content, apply_styles re_sub content styles =
             rules_applied_directly re_sub content styles.
Proof.
  unfold apply_styles, rules_applied_directly.
  induction styles as [|[name pds] styles IH]; intros content; [done|].
  simpl. rewrite IH, foldl_apply_pattern.
  by rewrite List.filter_app, foldl_app.
Qed.

(** The output depends on the rules only through [apply_styles]. *)
Lemma process_lines_ext re_sub styles styles' :
  (∀ segment, apply_styles re_sub segment styles =
              apply_styles re_sub segment styles') →
  ∀ lines, process_lines re_sub styles lines =
           process_lines re_sub styles' lines.
Proof.
  intros Heq lines. unfold process_lines.
  assert (Hflush : ∀ st, flush re_sub styles st = flush re_sub styles' st).
  { intros st. unfold flush. destruct (buffer st); [done|]. by rewrite Heq. }
  assert (Hscan : ∀ st, scan re_sub styles st lines =
                        scan re_sub styles' st lines).
  { unfold scan. induction lines as [|l lines IH]; intros st; [done|].
    simpl. rewrite <- IH. f_equal. unfold step. by rewrite Hflush. }
  by rewrite Hscan, Hflush.
Qed.

(** C1.  A fence block passes through unchanged, whatever the rules.  Let
    the lines of the document be [pre], a line [o] whose trimmed text starts
    with [:::] and that opens a fence or lies in one (it is not the line that
    closes a fence already open), lines [body] none of which has the trimmed
    text [:::], the closing line [c], and [post].  Then the output is the
    output for [pre], then [o], [body] and [c] exactly as they are, then the
    output for [post]. *)
Theorem fence_block_verbatim re_sub styles content pre o body c post :
  splitlines_keepends content = pre ++ [o] ++ body ++ [c] ++ post →
  opens_fence o = true →
  (fenced_after pre = true → closes_fence o = false) →
  Forall (fun l => closes_fence l = false) body →
  closes_fence c = true →
  process_file re_sub content styles =
  process_lines re_sub styles pre
  ++ o ++ concat body ++ c
  ++ process_lines re_sub styles post.
Proof.
  intros Hlines Ho Hpre Hbody Hc.
  unfold process_file, process_lines. rewrite Hlines.
  replace (pre ++ [o] ++ body ++ [c] ++ post)
    with ((pre ++ [o] ++ body) ++ [c] ++ post)
    by (by rewrite <- !app_assoc).
  rewrite scan_app, scan_open_fence by done.
  rewrite scan_app.
  change (scan re_sub styles ?st [c]) with (step re_sub styles st c).
  rewrite step_closes, scan_from, flush_prepend by done.
  rewrite !concat_app. simpl. rewrite app_nil_r.
  by rewrite <- !app_assoc.
Qed.

Lemma fence_block_verbatim_witness :
  process_file PyRe.re_sub
    (u "ab" ++ [0x0a] ++ u "::: {.inc}" ++ [0x0a] ++ u "ab" ++ [0x0a]
     ++ u ":::" ++ [0x0a] ++ u "ab")
    Sample.ab_to_Z =
  u "Z" ++ [0x0a] ++ u "::: {.inc}" ++ [0x0a] ++ u "ab" ++ [0x0a]
  ++ u ":::" ++ [0x0a] ++ u "Z".
Proof.
  refine (eq_trans
    (fence_block_verbatim PyRe.re_sub Sample.ab_to_Z _
       [u "ab" ++ [0x0a]] (u "::: {.inc}" ++ [0x0a]) [u "ab" ++ [0x0a]]
       (u ":::" ++ [0x0a]) [u "ab"] _ _ _ _ _) _).
  - reflexivity.
  - reflexivity.
  - discriminate.
  - repeat constructor.
  - reflexivity.
  - vm_compute. reflexivity.
Defined.

(** C10.  A fence that is never closed runs to the end of the document.  Let
    the lines be [pre], a line [o] whose trimmed text starts with [:::] (and
    that is not the line closing a fence already open), and lines [rest]
    none of which has the trimmed text [:::].  Then the output is the output
    for [pre] followed by [o] and [rest] exactly as they are. *)
Theorem unclosed_fence_verbatim re_sub styles content pre o rest :
  splitlines_keepends content = pre ++ [o] ++ rest →
  opens_fence o = true →
  (fenced_after pre = true → closes_fence o = false) →
  Forall (fun l => closes_fence l = false) rest →
  process_file re_sub content styles =
  process_lines re_sub styles pre ++ o ++ concat rest.
Proof.
  intros Hlines Ho Hpre Hrest.
  unfold process_file, process_lines at 1. rewrite Hlines.
  rewrite scan_open_fence by done.
  unfold flush at 1. cbn [buffer out_lines].
  rewrite !concat_app. simpl. by rewrite app_nil_r.
Qed.

Lemma unclosed_fence_verbatim_witness :
  process_file PyRe.re_sub
    (u "ab" ++ [0x0a] ++ u ":::x" ++ [0x0a] ++ u "ab" ++ [0x0a]
     ++ u "::: ab" ++ [0x0a] ++ u "ab")
    Sample.ab_to_Z =
  u "Z" ++ [0x0a] ++ u ":::x" ++ [0x0a] ++ u "ab" ++ [0x0a]
  ++ u "::: ab" ++ [0x0a] ++ u "ab".
Proof.
  refine (eq_trans
    (unclosed_fence_verbatim PyRe.re_sub Sample.ab_to_Z _
       [u "ab" ++ [0x0a]] (u ":::x" ++ [0x0a])
       [u "ab" ++ [0x0a]; u "::: ab" ++ [0x0a]; u "ab"] _ _ _ _) _).
  - reflexivity.
  - reflexivity.
  - discriminate.
  - repeat constructor.
  - vm_compute. reflexivity.
Defined.

(** C4, as the code has it.  For a document without a fence-opening line the
    output is the result of applying every valid rule once, in declaration
    order, to the whole text, provided the document is not empty; the empty
    document is written back empty, with no rule applied. *)
Theorem no_fence_rules_applied_directly re_sub styles content :
  Forall (fun l => opens_fence l = false) (splitlines_keepends content) →
  process_file re_sub content styles =
  if truthy content then rules_applied_directly re_sub content styles
  else [].
Proof.
  intros Hno. unfold process_file, process_lines.
  unfold initial. rewrite scan_no_fence by done. simpl.
  unfold flush. cbn [buffer out_lines].
  destruct (splitlines_keepends content) as [|l ls] eqn:Hl.
  - apply splitlines_keepends_nil in Hl. by subst.
  - rewrite <- Hl, concat_splitlines_keepends. simpl. rewrite app_nil_r.
    rewrite apply_styles_direct.
    destruct content; [done|done].
Qed.

Lemma no_fence_rules_applied_directly_witness :
  Forall (fun l => opens_fence l = false)
    (splitlines_keepends (u "ab" ++ [0x0a] ++ u "cab"))
  ∧ process_file PyRe.re_sub (u "ab" ++ [0x0a] ++ u "cab")
      Sample.anchored_then_back
    = u "ab!" ++ [0x0a] ++ u "cab".
Proof.
  assert (H : Forall (fun l => opens_fence l = false)
                (splitlines_keepends (u "ab" ++ [0x0a] ++ u "cab")))
    by (repeat constructor).
  split; [exact H|].
  refine (eq_trans
    (no_fence_rules_applied_directly PyRe.re_sub Sample.anchored_then_back
       _ H) _).
  vm_compute. reflexivity.
Defined.

(** C4 as stated fails on the empty document: it has no fence-opening line,
    the rule [^] -> [X] applied to the whole (empty) text gives [X], and
    [process_file] writes the empty text. *)
Lemma empty_document_not_styled :
  Forall (fun l => opens_fence l = false) (splitlines_keepends [])
  ∧ process_file PyRe.re_sub [] Sample.mark_line_starts = []
  ∧ rules_applied_directly PyRe.re_sub [] Sample.mark_line_starts = u "X"
  ∧ process_file PyRe.re_sub [] Sample.mark_line_starts
    ≠ rules_applied_directly PyRe.re_sub [] Sample.mark_line_starts.
Proof.
  split; [constructor|].
  split; [reflexivity|]. split; [reflexivity|].
  vm_compute. discriminate.
Qed.

(** C9.  A rule whose pattern or replacement is empty or missing is skipped:
    with or without it in the rule set, every segment is styled the same and
    every document gives the same output. *)
Theorem empty_rule_skipped re_sub s1 name p1 pd p2 s2 :
  default [] (pattern pd) = [] ∨ default [] (replacement pd) = [] →
  (∀ segment,
     apply_styles re_sub segment (s1 ++ [(name, p1 ++ [pd] ++ p2)] ++ s2) =
     apply_styles re_sub segment (s1 ++ [(name, p1 ++ p2)] ++ s2))
  ∧ (∀ content,
     process_file re_sub content (s1 ++ [(name, p1 ++ [pd] ++ p2)] ++ s2) =
     process_file re_sub content (s1 ++ [(name, p1 ++ p2)] ++ s2)).
Proof.
  intros Hpd.
  assert (Hskip : ∀ content, apply_pattern re_sub content pd = content).
  { intros content. unfold apply_pattern.
    destruct Hpd as [-> | ->]; [done | by rewrite andb_false_r]. }
  assert (Heq : ∀ segment,
     apply_styles re_sub segment (s1 ++ [(name, p1 ++ [pd] ++ p2)] ++ s2) =
     apply_styles re_sub segment (s1 ++ [(name, p1 ++ p2)] ++ s2)).
  { intros segment. unfold apply_styles.
    rewrite !foldl_app. simpl. rewrite !foldl_app. simpl.
    by rewrite Hskip. }
  split; [exact Heq|].
  intros content. unfold process_file. by apply process_lines_ext.
Qed.

Lemma empty_rule_skipped_witness :
  (default [] (pattern Sample.deletion) = []
   ∨ default [] (replacement Sample.deletion) = [])
  ∧ process_file PyRe.re_sub (u "abab")
      [(u "s", [Sample.deletion; Sample.a_to_Z])]
    = u "ZbZb".
Proof.
  split; [right; reflexivity|].
  refine (eq_trans
    (proj2 (empty_rule_skipped PyRe.re_sub [] (u "s") [] Sample.deletion
              [Sample.a_to_Z] [] (or_intror eq_refl)) (u "abab")) _).
  vm_compute. reflexivity.
Defined.

End CustomizeFacts.

(** ** Merger: heading demotion *)

Module DemoteFacts.
Import Merge.

Lemma lstrip_snoc (r : list N) (h : N) :
  isspace h = false → lstrip (r ++ [h]) = lstrip r ++ [h].
Proof.
  intros Hh. induction r as [|c r IH]; simpl.
  - by rewrite Hh.
  - destruct (isspace c); [exact IH | done].
Qed.

(** Stripping a line that begins with [#] keeps the [#]. *)
Lemma strip_hash (l : list N) : strip (0x23 :: l) = 0x23 :: rstrip l.
Proof.
  unfold strip. change (lstrip (0x23 :: l)) with (0x23 :: l).
  unfold rstrip. rewrite reverse_cons, lstrip_snoc by done.
  by rewrite reverse_app.
Qed.

Lemma hash_not_underline (mark : N) (l : list N) :
  mark ≠ 0x23 → startswith (strip l) (u "#") = true →
  is_underline mark l = false.
Proof.
  intros Hmark. unfold is_underline. change (u "#") with [0x23].
  destruct (strip l) as [|c s]; [done|]. cbn [startswith truthy forallb andb].
  replace (startswith s []) with true by (by destruct s).
  rewrite andb_true_r. intros Hc%N.eqb_eq. subst c.
  apply N.eqb_neq in Hmark. by rewrite Hmark.
Qed.

(** The loop body, one line at a time. *)
Lemma demote_lines_cons (x : list N) (rest : list (list N)) :
  demote_lines (x :: rest) =
  if startswith (strip x) (u "#") then (u "#" ++ x) :: demote_lines rest
  else match rest with
       | y :: rest' =>
           if is_underline 0x3d y then
             (u "## " ++ x) :: [] :: demote_lines rest'
           else if is_underline 0x2d y then
             (u "### " ++ x) :: [] :: demote_lines rest'
           else x :: demote_lines rest
       | [] => x :: demote_lines rest
       end.
Proof. reflexivity. Qed.

(** Demotion is compositional around a [#] heading line: such a line is
    never the underline of the line before it. *)
Lemma demote_lines_hash (l : list N) (post : list (list N)) :
  startswith (strip l) (u "#") = true →
  ∀ pre, demote_lines (pre ++ l :: post) =
         demote_lines pre ++ (u "#" ++ l) :: demote_lines post.
Proof.
  intros Hl.
  assert (Hboth : ∀ pre,
    demote_lines (pre ++ l :: post) =
      demote_lines pre ++ (u "#" ++ l) :: demote_lines post
    ∧ ∀ x, demote_lines ((x :: pre) ++ l :: post) =
           demote_lines (x :: pre) ++ (u "#" ++ l) :: demote_lines post).
  { induction pre as [|y pre [IH1 IH2]].
    - assert (H0 : demote_lines ([] ++ l :: post) =
                   demote_lines [] ++ (u "#" ++ l) :: demote_lines post).
      { change ([] ++ l :: post) with (l :: post).
        rewrite demote_lines_cons, Hl. done. }
      split; [exact H0|].
      intros x. change ((x :: []) ++ l :: post) with (x :: [] ++ l :: post).
      rewrite !(demote_lines_cons x). rewrite H0.
      destruct (startswith (strip x) (u "#")); [done|].
      change ([] ++ l :: post) with (l :: post). cbv beta iota.
      by rewrite !hash_not_underline.
    - split; [apply IH2|].
      intros x.
      change ((x :: y :: pre) ++ l :: post)
        with (x :: (y :: pre) ++ l :: post).
      rewrite !(demote_lines_cons x). rewrite IH2.
      destruct (startswith (strip x) (u "#")); [done|].
      change ((y :: pre) ++ l :: post) with (y :: pre ++ l :: post).
      cbv beta iota.
      destruct (is_underline 0x3d y); [by rewrite IH1|].
      destruct (is_underline 0x2d y); [by rewrite IH1|].
      done. }
  intros pre. apply Hboth.
Qed.

Lemma length_demote_lines (lines : list (list N)) :
  length (demote_lines lines) = length lines.
Proof.
  assert (Hboth : length (demote_lines lines) = length lines
    ∧ ∀ x, length (demote_lines (x :: lines)) = S (length lines)).
  { induction lines as [|y lines [IH1 IH2]].
    - split; [done|]. intros x. rewrite demote_lines_cons.
      by destruct (startswith _ _).
    - split; [apply IH2|]. intros x. rewrite (demote_lines_cons x).
      destruct (startswith (strip x) (u "#"));
        [cbn [length]; by rewrite IH2|].
      destruct (is_underline 0x3d y); [cbn [length]; by rewrite IH1|].
      destruct (is_underline 0x2d y); [cbn [length]; by rewrite IH1|].
      cbn [length]. by rewrite IH2. }
  apply Hboth.
Qed.

Lemma split_nl_no_newline (s : list N) : Forall no_newline (split_nl s).
Proof.
  induction s as [|c s IH]; simpl.
  - repeat constructor. unfold no_newline. apply not_elem_of_nil.
  - destruct (N.eqb_spec c 0x0a) as [->|Hc].
    + constructor; [apply not_elem_of_nil | done].
    + assert (Hcl : ∀ l, no_newline l → no_newline (c :: l)).
      { intros l Hl. apply not_elem_of_cons. split; [congruence|done]. }
      destruct (split_nl s) as [|l ls].
      * repeat constructor. apply Hcl, not_elem_of_nil.
      * inversion IH; subst. constructor; [by apply Hcl | done].
Qed.

Lemma split_nl_not_nil (s : list N) : split_nl s ≠ [].
Proof.
  destruct s as [|c s]; simpl; [done|].
  destruct (c =? 0x0a); [done|]. by destruct (split_nl s).
Qed.

Lemma split_nl_app_no_newline (l rest : list N) :
  no_newline l →
  split_nl (l ++ 0x0a :: rest) = l :: split_nl rest.
Proof.
  unfold no_newline. induction l as [|c l IH]; intros Hl; simpl; [done|].
  rewrite not_elem_of_cons in Hl. destruct Hl as [Hc Hl].
  destruct (N.eqb_spec c 0x0a) as [->|_]; [done|].
  by rewrite IH.
Qed.

Lemma split_nl_single (l : list N) : no_newline l → split_nl l = [l].
Proof.
  unfold no_newline. induction l as [|c l IH]; intros Hl; simpl; [done|].
  rewrite not_elem_of_cons in Hl. destruct Hl as [Hc Hl].
  destruct (N.eqb_spec c 0x0a) as [->|_]; [done|].
  by rewrite IH.
Qed.

(** ['\n'.join(lines).split('\n') == lines] for lines without a line feed. *)
Lemma split_nl_join (lines : list (list N)) :
  lines ≠ [] → Forall no_newline lines →
  split_nl (join [0x0a] lines) = lines.
Proof.
  intros Hne Hall. induction Hall as [|l lines Hl Hall IH]; [done|].
  destruct lines as [|l' lines].
  - simpl. by apply split_nl_single.
  - change (join [0x0a] (l :: l' :: lines))
      with (l ++ 0x0a :: join [0x0a] (l' :: lines)).
    rewrite split_nl_app_no_newline by done. by rewrite IH.
Qed.

Lemma demote_lines_no_newline (lines : list (list N)) :
  Forall no_newline lines → Forall no_newline (demote_lines lines).
Proof.
  assert (Hcons : ∀ p l, 0x0a ∉ p → no_newline l → no_newline (p ++ l)).
  { unfold no_newline. intros p l Hp Hl. rewrite elem_of_app. tauto. }
  assert (Hnil : no_newline []) by apply not_elem_of_nil.
  assert (H1 : 0x0a ∉ u "#") by (apply (bool_decide_unpack _); vm_compute; exact I).
  assert (H2 : 0x0a ∉ u "## ") by (apply (bool_decide_unpack _); vm_compute; exact I).
  assert (H3 : 0x0a ∉ u "### ") by (apply (bool_decide_unpack _); vm_compute; exact I).
  assert (Hboth : (Forall no_newline lines →
                   Forall no_newline (demote_lines lines))
    ∧ ∀ x, Forall no_newline (x :: lines) →
           Forall no_newline (demote_lines (x :: lines))).
  { induction lines as [|y lines [IH1 IH2]].
    - split; [done|]. intros x Hx. inversion Hx; subst.
      rewrite demote_lines_cons.
      destruct (startswith _ _); repeat constructor; auto.
    - split; [apply IH2|]. intros x Hx. inversion Hx as [|? ? Hx1 Hx2]; subst.
      pose proof Hx2 as Hx3. inversion Hx3; subst.
      rewrite (demote_lines_cons x).
      destruct (startswith (strip x) (u "#")).
      { constructor; [auto|by apply IH2]. }
      destruct (is_underline 0x3d y).
      { constructor; [auto|constructor; [done|by apply IH1]]. }
      destruct (is_underline 0x2d y).
      { constructor; [auto|constructor; [done|by apply IH1]]. }
      constructor; [done|by apply IH2]. }
  apply Hboth.
Qed.

(** C8.  Demotion adds one level and is not a no-op on repeat: a line whose
    trimmed text starts with [#] gets exactly one more [#] in front, the
    lines before and after it being demoted on their own; a second
    application puts a second [#] in front, so that the result differs from
    the result of one application. *)
Theorem demotion_adds_one_level (content : list N)
  (pre : list (list N)) (l : list N) (post : list (list N)) :
  split_nl content = pre ++ l :: post →
  startswith (strip l) (u "#") = true →
  demote_headers content =
    join [0x0a] (demote_lines pre ++ (u "#" ++ l) :: demote_lines post)
  ∧ demote_headers (demote_headers content) =
    join [0x0a] (demote_lines (demote_lines pre)
                 ++ (u "##" ++ l) :: demote_lines (demote_lines post))
  ∧ demote_headers (demote_headers content) ≠ demote_headers content.
Proof.
  intros Hlines Hl.
  assert (Hl' : startswith (strip (u "#" ++ l)) (u "#") = true).
  { change (u "#" ++ l) with (0x23 :: l). by rewrite strip_hash. }
  assert (Hnn : Forall no_newline (pre ++ l :: post)).
  { rewrite <- Hlines. apply split_nl_no_newline. }
  assert (Hone : demote_headers content =
    join [0x0a] (demote_lines pre ++ (u "#" ++ l) :: demote_lines post)).
  { unfold demote_headers. by rewrite Hlines, demote_lines_hash. }
  assert (Hsplit : split_nl (demote_headers content) =
    demote_lines pre ++ (u "#" ++ l) :: demote_lines post).
  { unfold demote_headers. rewrite split_nl_join.
    - by rewrite Hlines, demote_lines_hash.
    - rewrite Hlines, demote_lines_hash by done. by destruct (demote_lines pre).
    - apply demote_lines_no_newline, split_nl_no_newline. }
  assert (Htwo : demote_headers (demote_headers content) =
    join [0x0a] (demote_lines (demote_lines pre)
                 ++ (u "##" ++ l) :: demote_lines (demote_lines post))).
  { unfold demote_headers at 1. rewrite Hsplit.
    by rewrite demote_lines_hash. }
  split; [exact Hone|]. split; [exact Htwo|].
  intros Heq. rewrite Htwo, Hone in Heq.
  apply (f_equal split_nl) in Heq.
  rewrite !split_nl_join in Heq.
  - apply app_inj_1 in Heq as [_ Heq]; [|by rewrite !length_demote_lines].
    injection Heq as Heq _.
    apply (f_equal length) in Heq. simpl in Heq. lia.
  - by destruct (demote_lines pre).
  - rewrite <- Hsplit. unfold demote_headers. rewrite split_nl_join.
    + apply demote_lines_no_newline, split_nl_no_newline.
    + pose proof (split_nl_not_nil content) as Hc.
      pose proof (length_demote_lines (split_nl content)) as Hlen.
      destruct (demote_lines (split_nl content));
        destruct (split_nl content); done.
    + apply demote_lines_no_newline, split_nl_no_newline.
  - by destruct (demote_lines (demote_lines pre)).
  - assert (Hd : Forall no_newline
      (demote_lines (demote_lines pre ++ (u "#" ++ l) :: demote_lines post))).
    { rewrite <- Hsplit. unfold demote_headers. rewrite split_nl_join.
      + do 2 apply demote_lines_no_newline. apply split_nl_no_newline.
      + pose proof (split_nl_not_nil content) as Hc.
        pose proof (length_demote_lines (split_nl content)) as Hlen.
        destruct (demote_lines (split_nl content));
          destruct (split_nl content); done.
      + apply demote_lines_no_newline, split_nl_no_newline. }
    by rewrite demote_lines_hash in Hd.
Qed.

Lemma demotion_adds_one_level_witness :
  split_nl (u "intro" ++ [0x0a] ++ u "# One" ++ [0x0a] ++ u "text") =
    [u "intro"] ++ u "# One" :: [u "text"]
  ∧ startswith (strip (u "# One")) (u "#") = true
  ∧ demote_headers
      (demote_headers (u "intro" ++ [0x0a] ++ u "# One" ++ [0x0a] ++ u "text"))
    = u "intro" ++ [0x0a] ++ u "### One" ++ [0x0a] ++ u "text".
Proof.
  split; [reflexivity|]. split; [reflexivity|].
  refine (eq_trans
    (proj1 (proj2 (demotion_adds_one_level
       (u "intro" ++ [0x0a] ++ u "# One" ++ [0x0a] ++ u "text")
       [u "intro"] (u "# One") [u "text"] eq_refl eq_refl))) _).
  reflexivity.
Defined.

(** A setext heading met by the scan: the pair becomes one [#]-prefixed line
    and an empty line, and the scan resumes after the underline. *)
Lemma setext_heading_converted (line next_line : list N)
  (rest : list (list N)) :
  startswith (strip line) (u "#") = false →
  (is_underline 0x3d next_line = true →
   demote_lines (line :: next_line :: rest) =
   (u "## " ++ line) :: [] :: demote_lines rest)
  ∧ (is_underline 0x3d next_line = false →
     is_underline 0x2d next_line = true →
     demote_lines (line :: next_line :: rest) =
     (u "### " ++ line) :: [] :: demote_lines rest).
Proof.
  intros Hl. rewrite demote_lines_cons, Hl.
  split; [by intros -> | by intros -> ->].
Qed.

(** C2, on the code.  The conversion does not ask the heading line to be
    non-blank: in [x], empty line, [---], [y] the empty line and the rule
    under it become the heading line [### ] and an empty line. *)
Theorem blank_line_before_rule_becomes_heading :
  demote_headers (u "x" ++ [0x0a; 0x0a] ++ u "---" ++ [0x0a] ++ u "y") =
  u "x" ++ [0x0a] ++ u "### " ++ [0x0a; 0x0a] ++ u "y".
Proof. reflexivity. Qed.

End DemoteFacts.

(** ** Merger: volumes *)

Module MergeFacts.
Import Merge.

Lemma str_leb_total (a b : list N) :
  str_leb a b = true ∨ str_leb b a = true.
Proof.
  revert b. induction a as [|x a IH]; intros [|y b]; simpl; auto.
  destruct (N.ltb_spec x y), (N.ltb_spec y x); simpl; auto; try lia.
  assert (x = y) as -> by lia. rewrite N.eqb_refl. simpl. apply IH.
Qed.

Lemma str_leb_trans (a b c : list N) :
  str_leb a b = true → str_leb b c = true → str_leb a c = true.
Proof.
  revert b c. induction a as [|x a IH]; intros [|y b] [|z c]; simpl; try done.
  rewrite !orb_true_iff, !andb_true_iff, !N.ltb_lt, !N.eqb_eq.
  intros [Hxy | [-> Hab]] [Hyz | [-> Hbc]]; try (left; lia).
  right. eauto.
Qed.

#[global] Instance str_le_total : Total str_le.
Proof. intros a b. apply str_leb_total. Qed.

#[global] Instance str_le_trans : Transitive str_le.
Proof. intros a b c. apply str_leb_trans. Qed.

Lemma elem_of_glob_md (d : gmap (list N) entry) (f : list N) :
  f ∈ glob_md d ↔ is_Some (d !! f) ∧ endswith f (u ".md") = true.
Proof.
  unfold glob_md. rewrite list_elem_of_In, filter_In, <- list_elem_of_In.
  rewrite list_elem_of_fmap. split.
  - intros [[[k v] [-> Hkv%elem_of_map_to_list]] He]. simpl in *. eauto.
  - intros [[v Hv] He]. split; [|done].
    exists (f, v). split; [done|]. by apply elem_of_map_to_list.
Qed.

(** The files merged: the eligible entries of the directory, each once,
    in the order of their names. *)
Lemma elem_of_md_files (d : gmap (list N) entry) (f : list N) :
  f ∈ md_files d ↔ is_Some (d !! f) ∧ eligible f = true.
Proof.
  unfold md_files, sorted, eligible. rewrite merge_sort_Permutation.
  rewrite list_elem_of_In, filter_In, <- list_elem_of_In, elem_of_glob_md.
  rewrite andb_true_iff. tauto.
Qed.

Lemma NoDup_md_files (d : gmap (list N) entry) : NoDup (md_files d).
Proof.
  unfold md_files, sorted. rewrite merge_sort_Permutation.
  apply NoDup_ListNoDup, List.NoDup_filter.
  unfold glob_md. apply List.NoDup_filter, NoDup_ListNoDup.
  apply NoDup_fst_map_to_list.
Qed.

Lemma sorted_md_files (d : gmap (list N) entry) :
  StronglySorted str_le (md_files d).
Proof. unfold md_files, sorted. apply StronglySorted_merge_sort; apply _. Qed.

Lemma read_demoted_readable (d : gmap (list N) entry)
  (names : list (list N)) :
  Forall (fun f => ∃ content, d !! f = Some (File content)) names →
  read_demoted d names =
  Some (map (fun f => demote_headers (file_text d f)) names).
Proof.
  induction 1 as [|f names [content Hf] _ IH]; [done|].
  simpl. unfold file_text at 1. by rewrite Hf, IH.
Qed.

Lemma read_demoted_raises (d : gmap (list N) entry)
  (names : list (list N)) :
  read_demoted d names = None ↔
  ∃ f, f ∈ names ∧ ∀ content, d !! f ≠ Some (File content).
Proof.
  induction names as [|f names IH]; simpl.
  - split; [done|]. intros (f & Hf & _). by apply not_elem_of_nil in Hf.
  - destruct (d !! f) as [[content|]|] eqn:Hf.
    + destruct (read_demoted d names) as [demoted|].
      * split; [done|]. intros (g & [->|Hg]%elem_of_cons & Hno).
        -- by destruct (Hno content).
        -- assert (Some demoted = None) as H0 by (apply IH; eauto).
           discriminate H0.
      * split; [|done]. intros _.
        destruct (proj1 IH eq_refl) as (g & Hg & Hno).
        exists g. split; [by right | done].
    + split; [|done]. intros _. exists f. split; [by left|].
      intros content. by rewrite Hf.
    + split; [|done]. intros _. exists f. split; [by left|].
      intros content. by rewrite Hf.
Qed.

(** [merge_volume] raises exactly when one of the files it takes cannot be
    read. *)
Lemma merge_volume_raises (volume_name : list N) (cfg : volume_config)
  (input_dir output_dir : list (list N))
  (fs : gmap (list (list N)) (gmap (list N) entry)) :
  merge_volume volume_name cfg input_dir output_dir fs = None ↔
  ∃ d f, fs !! volume_input_dir volume_name cfg input_dir = Some d
         ∧ eligible f = true ∧ d !! f = Some Unreadable.
Proof.
  unfold merge_volume.
  destruct (fs !! volume_input_dir volume_name cfg input_dir) as [d|];
    [|split; [done | by intros (? & ? & ? & _)]].
  assert (Hr : read_demoted d (md_files d) = None ↔
               ∃ f, eligible f = true ∧ d !! f = Some Unreadable).
  { rewrite read_demoted_raises. split.
    - intros (f & [[e He] Hel]%elem_of_md_files & Hno).
      exists f. split; [done|]. destruct e as [content|]; [|done].
      by destruct (Hno content).
    - intros (f & Hel & Hf). exists f. split.
      + apply elem_of_md_files. eauto.
      + intros content. by rewrite Hf. }
  destruct (md_files d) as [|f1 names] eqn:Hfiles.
  - split; [done|]. intros (d' & f & [= <-] & Hel & Hf).
    assert (f ∈ md_files d) as Hin by (apply elem_of_md_files; eauto).
    rewrite Hfiles in Hin. by apply not_elem_of_nil in Hin.
  - destruct (read_demoted d (f1 :: names)) as [demoted|].
    + split; [done|]. intros (d' & f & [= <-] & Hel & Hf).
      assert (Some demoted = None) as H0 by (apply Hr; eauto).
      discriminate H0.
    + split; [|done]. intros _.
      destruct (proj1 Hr eq_refl) as (f & Hel & Hf). eauto.
Qed.

Lemma read_text_write_text (dir : list (list N)) (name content : list N)
  (fs : gmap (list (list N)) (gmap (list N) entry)) :
  read_text (write_text dir name content fs) dir name = Some (File content).
Proof.
  unfold read_text, write_text. by rewrite lookup_insert_eq, lookup_insert_eq.
Qed.

(** A volume whose input directory is absent is skipped: nothing changes and
    nothing is raised. *)
Lemma merge_volume_skips_missing (volume_name : list N)
  (cfg : volume_config) (input_dir output_dir : list (list N))
  (fs : gmap (list (list N)) (gmap (list N) entry)) :
  fs !! volume_input_dir volume_name cfg input_dir = None →
  merge_volume volume_name cfg input_dir output_dir fs = Some fs.
Proof. unfold merge_volume. by intros ->. Qed.

Lemma merge_volumes_skip_all (volumes : list (list N * volume_config))
  (input_dir output_dir : list (list N))
  (fs : gmap (list (list N)) (gmap (list N) entry)) :
  (∀ name cfg, (name, cfg) ∈ volumes →
     fs !! volume_input_dir name cfg input_dir = None) →
  merge_volumes volumes input_dir output_dir fs = (fs, true).
Proof.
  induction volumes as [|[name cfg] volumes IH]; intros Hall; [done|].
  simpl. rewrite merge_volume_skips_missing.
  - apply IH. intros n c Hin. apply Hall. by right.
  - apply Hall. by left.
Qed.

(** C5.  For a volume whose input directory exists and holds at least one
    eligible file ([.md] but not [.tmp.md]), all of them readable,
    [merge_volume] writes to [output_dir/<volume_name>.md] the line
    [# <title>], then the demoted text of every eligible file, the parts
    joined by an empty line; the files are taken each once, in the order of
    their names. *)
Theorem merge_volume_document (volume_name : list N)
  (cfg : volume_config) (input_dir output_dir : list (list N))
  (fs : gmap (list (list N)) (gmap (list N) entry))
  (d : gmap (list N) entry) :
  fs !! volume_input_dir volume_name cfg input_dir = Some d →
  (∃ f, is_Some (d !! f) ∧ eligible f = true) →
  (∀ f, eligible f = true → d !! f ≠ Some Unreadable) →
  ∃ fs',
    merge_volume volume_name cfg input_dir output_dir fs = Some fs'
    ∧ read_text fs' output_dir (volume_name ++ u ".md") =
      Some (File (u "# " ++ default volume_name (title cfg) ++ [0x0a]
                  ++ [0x0a; 0x0a]
                  ++ join [0x0a; 0x0a]
                       (map (fun f => demote_headers (file_text d f))
                          (md_files d))))
    ∧ StronglySorted str_le (md_files d)
    ∧ NoDup (md_files d)
    ∧ ∀ f, f ∈ md_files d ↔ is_Some (d !! f) ∧ eligible f = true.
Proof.
  intros Hd [f0 Hf0] Hread.
  assert (Hne : md_files d ≠ []).
  { apply elem_of_md_files in Hf0. intros E. rewrite E in Hf0.
    by apply not_elem_of_nil in Hf0. }
  assert (Hall : Forall (fun f => ∃ content, d !! f = Some (File content))
                   (md_files d)).
  { apply Forall_forall. intros f [[e He] Hel]%elem_of_md_files.
    destruct e as [content|]; [eauto|]. by apply Hread in Hel. }
  unfold merge_volume. rewrite Hd.
  rewrite (read_demoted_readable d (md_files d) Hall).
  destruct (md_files d) as [|f1 names] eqn:Hfiles; [done|].
  eexists. split; [reflexivity|].
  split.
  { rewrite read_text_write_text. do 2 f_equal.
    cbn [join map]. rewrite <- !app_assoc. reflexivity. }
  rewrite <- Hfiles.
  split; [apply sorted_md_files|].
  split; [apply NoDup_md_files|].
  apply elem_of_md_files.
Qed.

Lemma merge_volume_document_witness :
  ∃ fs',
    merge_volume (u "volume-001") Sample.volume_one [u "book"]
      [u "book"; u "obj"] Sample.book = Some fs'
    ∧ read_text fs' [u "book"; u "obj"] (u "volume-001.md") =
      Some (File (u "# One" ++ [0x0a; 0x0a; 0x0a]
                  ++ u "## A" ++ [0x0a] ++ u "text" ++ [0x0a; 0x0a]
                  ++ u "## B" ++ [0x0a])).
Proof.
  assert (H1 : Sample.book
               !! volume_input_dir (u "volume-001") Sample.volume_one
                    [u "book"] = Some Sample.chapters)
    by apply lookup_singleton_eq.
  assert (H2 : ∃ f, is_Some (Sample.chapters !! f) ∧ eligible f = true).
  { exists (u "b.md"). split; [|reflexivity].
    eexists. apply lookup_insert_eq. }
  assert (H3 : ∀ f, eligible f = true →
                 Sample.chapters !! f ≠ Some Unreadable).
  { intros f _ Hf. unfold Sample.chapters in Hf.
    repeat (apply lookup_insert_Some in Hf as [[_ Hf]|[_ Hf]];
            [discriminate|]).
    by rewrite lookup_empty in Hf. }
  destruct (merge_volume_document (u "volume-001") Sample.volume_one
              [u "book"] [u "book"; u "obj"] Sample.book Sample.chapters
              H1 H2 H3) as (fs' & Hm & Hr & _).
  exists fs'. split; [exact Hm|].
  change (u "volume-001.md") with (u "volume-001" ++ u ".md").
  rewrite Hr. vm_compute. reflexivity.
Defined.

(** C6, as the code has it.  [main] returns a nonzero status exactly when
    the configuration file is missing, names no volume, does not name the
    volume asked for, or an exception is raised while merging.  Skipped
    volumes do not count: when the configuration names volumes and the input
    directory of every one of them is absent, [main] returns 0 and writes
    nothing. *)
Theorem merger_exit_status
  (config : option (list (list N * volume_config))) (args : parsed_args)
  (cwd : list (list N)) (fs : gmap (list (list N)) (gmap (list N) entry)) :
  (fst (main config args cwd fs) ≠ 0 ↔
     config = None ∨ config = Some []
     ∨ ∃ volumes, config = Some volumes ∧
         if truthy (default [] (volume args)) then
           match lookup_volume (default [] (volume args)) volumes with
           | None => True
           | Some cfg =>
               merge_volume (default [] (volume args)) cfg
                 (default cwd (input args)) (default cwd (output args)) fs
               = None
           end
         else
           snd (merge_volumes volumes (default cwd (input args))
                  (default cwd (output args)) fs) = false)
  ∧ (∀ volumes,
       config = Some volumes → volumes ≠ [] →
       truthy (default [] (volume args)) = false →
       (∀ name cfg, (name, cfg) ∈ volumes →
          fs !! volume_input_dir name cfg (default cwd (input args)) = None) →
       main config args cwd fs = (0, fs)).
Proof.
  split.
  - unfold main. destruct config as [volumes|]; [|simpl; split; auto].
    destruct volumes as [|v0 volumes]; [simpl; split; auto|].
    set (vs := v0 :: volumes).
    assert (Hvs : Some vs ≠ Some []) by done.
    destruct (truthy (default [] (volume args))) eqn:Hv.
    + destruct (lookup_volume _ vs) as [cfg|] eqn:Hl.
      * destruct (merge_volume _ cfg _ _ fs) as [fs'|] eqn:Hm; simpl.
        -- split; [done|]. intros [?|[?|(vs' & [= <-] & H)]]; try done.
           rewrite ?Hv, ?Hl, ?Hm in H. done.
        -- split; [|done]. intros _. right; right. exists vs.
           split; [done|]. by rewrite ?Hv, ?Hl, ?Hm.
      * simpl. split; [|done]. intros _. right; right. exists vs.
        split; [done|]. by rewrite ?Hv, ?Hl.
    + destruct (merge_volumes vs _ _ fs) as [fs' [|]] eqn:Hm; simpl.
      * split; [done|]. intros [?|[?|(vs' & [= <-] & H)]]; try done.
        rewrite ?Hv, ?Hm in H. done.
      * split; [|done]. intros _. right; right. exists vs.
        split; [done|]. by rewrite ?Hv, ?Hm.
  - intros volumes -> Hne Hv Hall. unfold main.
    destruct volumes as [|v0 volumes]; [done|].
    rewrite Hv. by rewrite merge_volumes_skip_all.
Qed.

Lemma merger_exit_status_witness :
  main (Some [(u "volume-002", Sample.volume_two)]) Sample.no_args
    [u "book"] Sample.book = (0, Sample.book).
Proof.
  apply (proj2 (merger_exit_status
                  (Some [(u "volume-002", Sample.volume_two)])
                  Sample.no_args [u "book"] Sample.book)
           [(u "volume-002", Sample.volume_two)] eq_refl).
  - discriminate.
  - reflexivity.
  - intros name cfg Hin. apply list_elem_of_singleton in Hin.
    injection Hin as -> ->. apply lookup_singleton_ne. discriminate.
Defined.

(** C6 as stated fails: the configuration file exists and names two volumes,
    the input directory of each is absent, so both are skipped and nothing is
    written, and the exit status is 0. *)
Lemma all_volumes_skipped_exit_zero :
  (∀ name cfg,
     (name, cfg) ∈ [(u "volume-001", Sample.volume_one);
                    (u "volume-002", Sample.volume_two)] →
     (∅ : gmap (list (list N)) (gmap (list N) entry))
     !! volume_input_dir name cfg [u "book"] = None)
  ∧ main (Some [(u "volume-001", Sample.volume_one);
                (u "volume-002", Sample.volume_two)])
      Sample.no_args [u "book"] ∅ = (0, ∅).
Proof.
  split; [intros; apply lookup_empty | reflexivity].
Qed.

End MergeFacts.

(** ** Heading demotion: further properties *)

Module DemoteMore.
Import Merge Shape DemoteFacts MergeFacts.

Lemma join_split_nl (s : list N) : join [0x0a] (split_nl s) = s.
Proof.
  induction s as [|c s IH]; [done|]. cbn [split_nl].
  pose proof (split_nl_not_nil s) as Hne.
  destruct (c =? 0x0a) eqn:Hc.
  - apply N.eqb_eq in Hc. subst c.
    destruct (split_nl s) as [|l ls]; [done|].
    change (join [0x0a] ([] :: l :: ls)) with (0x0a :: join [0x0a] (l :: ls)).
    by rewrite IH.
  - destruct (split_nl s) as [|l ls]; [done|].
    destruct ls as [|l' ls]; simpl in *; by rewrite <- IH.
Qed.

Lemma demoted_from_lines (lines : list (list N)) :
  Forall2 demoted_from lines (demote_lines lines).
Proof.
  assert (Hboth : Forall2 demoted_from lines (demote_lines lines)
    ∧ ∀ x, Forall2 demoted_from (x :: lines) (demote_lines (x :: lines))).
  { induction lines as [|y lines [IH1 IH2]].
    - split; [constructor|]. intros x. rewrite demote_lines_cons.
      destruct (startswith (strip x) (u "#")) eqn:Hx;
        (apply Forall2_cons; split; [|by constructor]);
        unfold demoted_from; auto.
    - split; [apply IH2|]. intros x. rewrite (demote_lines_cons x).
      destruct (startswith (strip x) (u "#")) eqn:Hx.
      { apply Forall2_cons; split; [|apply IH2]. unfold demoted_from; auto. }
      destruct (is_underline 0x3d y) eqn:He.
      { apply Forall2_cons; split; [unfold demoted_from; auto 6|].
        apply Forall2_cons; split; [|apply IH1]. unfold demoted_from; auto. }
      destruct (is_underline 0x2d y) eqn:Hd.
      { apply Forall2_cons; split; [unfold demoted_from; auto 6|].
        apply Forall2_cons; split; [|apply IH1]. unfold demoted_from; auto. }
      apply Forall2_cons; split; [|apply IH2]. unfold demoted_from; auto. }
  apply Hboth.
Qed.

(** X1.  Demotion works line by line: the output has as many lines as the
    input, and each output line comes from the input line at the same place
    as [demoted_from] says; no text is dropped, moved or rewritten. *)
Theorem demotion_is_linewise (content : list N) :
  Forall2 demoted_from (split_nl content) (split_nl (demote_headers content))
  ∧ length (split_nl (demote_headers content)) = length (split_nl content).
Proof.
  assert (Hs : split_nl (demote_headers content) =
               demote_lines (split_nl content)).
  { unfold demote_headers. apply split_nl_join.
    - pose proof (split_nl_not_nil content) as Hc.
      pose proof (length_demote_lines (split_nl content)) as Hlen.
      destruct (demote_lines (split_nl content));
        destruct (split_nl content); done.
    - apply demote_lines_no_newline, split_nl_no_newline. }
  rewrite Hs. split; [apply demoted_from_lines | apply length_demote_lines].
Qed.

Lemma demote_lines_plain (lines : list (list N)) :
  Forall (fun l => plain_line l = true) lines → demote_lines lines = lines.
Proof.
  assert (Hboth : (Forall (fun l => plain_line l = true) lines →
                   demote_lines lines = lines)
    ∧ ∀ x, Forall (fun l => plain_line l = true) (x :: lines) →
           demote_lines (x :: lines) = x :: lines).
  { induction lines as [|y lines [IH1 IH2]].
    - split; [done|]. intros x Hx. inversion Hx as [|? ? Hp _]; subst.
      unfold plain_line in Hp. rewrite demote_lines_cons.
      by destruct (startswith (strip x) (u "#")).
    - split; [apply IH2|]. intros x Hx.
      inversion Hx as [|? ? Hp Hrest]; subst.
      pose proof Hrest as Hy. inversion Hy as [|? ? Hpy _]; subst.
      unfold plain_line in Hp, Hpy. rewrite (demote_lines_cons x).
      destruct (startswith (strip x) (u "#")); [done|].
      destruct (is_underline 0x3d y); [by rewrite !andb_false_r in Hpy|].
      destruct (is_underline 0x2d y); [by rewrite !andb_false_r in Hpy|].
      by rewrite IH2. }
  apply Hboth.
Qed.

(** X2.  A document without headings is left as it is: when no line starts
    (after trimming) with [#] and no line is made of [=] only or of [-]
    only, [demote_headers] returns its input. *)
Theorem demote_headers_plain (content : list N) :
  Forall (fun l => plain_line l = true) (split_nl content) →
  demote_headers content = content.
Proof.
  intros Hplain. unfold demote_headers.
  rewrite demote_lines_plain by done. apply join_split_nl.
Qed.

Lemma demote_headers_plain_witness :
  Forall (fun l => plain_line l = true)
    (split_nl (u "one" ++ [0x0a; 0x0a] ++ u "- item" ++ [0x0a] ++ u "a = b"))
  ∧ demote_headers (u "one" ++ [0x0a; 0x0a] ++ u "- item" ++ [0x0a] ++ u "a = b")
    = u "one" ++ [0x0a; 0x0a] ++ u "- item" ++ [0x0a] ++ u "a = b".
Proof.
  assert (H : Forall (fun l => plain_line l = true)
    (split_nl (u "one" ++ [0x0a; 0x0a] ++ u "- item" ++ [0x0a] ++ u "a = b")))
    by (repeat constructor).
  split; [exact H|]. exact (demote_headers_plain _ H).
Defined.

Lemma demote_headers_below_top (content : list N) :
  Forall (fun l => startswith (strip l) (u "#") = true →
                   startswith l (u "#") = true) (split_nl content) →
  Forall (fun out => startswith out (u "#") = true →
                     startswith out (u "##") = true)
    (split_nl (demote_headers content)).
Proof.
  assert (Hs : split_nl (demote_headers content) =
               demote_lines (split_nl content)).
  { unfold demote_headers. apply split_nl_join.
    - pose proof (split_nl_not_nil content) as Hc.
      pose proof (length_demote_lines (split_nl content)) as Hlen.
      destruct (demote_lines (split_nl content));
        destruct (split_nl content); done.
    - apply demote_lines_no_newline, split_nl_no_newline. }
  rewrite Hs. clear Hs.
  pose proof (demoted_from_lines (split_nl content)) as Hrel.
  induction Hrel as [|line out lines outs Hone _ IH]; intros Hin; [done|].
  inversion Hin as [|? ? Hline Hrest]; subst.
  constructor; [|by apply IH].
  destruct Hone as [[Hx ->] | [[Hx Hout] | [_ ->]]].
  - intros _. specialize (Hline Hx).
    change (u "#" ++ line) with (0x23 :: line). change (u "##") with [0x23; 0x23].
    change (u "#") with [0x23] in Hline.
    cbn [startswith] in *. by rewrite N.eqb_refl.
  - destruct Hout as [-> | [-> | ->]]; [|done|done].
    intros Hstart. change (u "#") with [0x23] in Hstart.
    destruct line as [|c line]; [done|]. cbn [startswith] in Hstart.
    rewrite andb_true_r in Hstart. apply N.eqb_eq in Hstart. subst c.
    rewrite strip_hash in Hx. done.
  - done.
Qed.

(** X3.  After demotion no top-level heading is left, provided no heading
    of the input is indented: when every line whose trimmed text starts with
    [#] starts with [#] itself, every output line that starts with [#]
    starts with [##]. *)
Theorem demoted_headings_below_top (content : list N) :
  Forall (fun l => startswith (strip l) (u "#") = true →
                   startswith l (u "#") = true) (split_nl content) →
  Forall (fun out => startswith out (u "#") = true →
                     startswith out (u "##") = true)
    (split_nl (demote_headers content)).
Proof. apply demote_headers_below_top. Qed.

Lemma demoted_headings_below_top_witness :
  Forall (fun out => startswith out (u "#") = true →
                     startswith out (u "##") = true)
    (split_nl (demote_headers
       (u "# One" ++ [0x0a] ++ u "Two" ++ [0x0a] ++ u "===" ++ [0x0a]
        ++ u "text"))).
Proof.
  apply demoted_headings_below_top.
  repeat constructor; vm_compute; done.
Defined.

Lemma split_nl_app_lf (a b : list N) :
  split_nl (a ++ 0x0a :: b) = split_nl a ++ split_nl b.
Proof.
  induction a as [|c a IH]; [done|].
  change ((c :: a) ++ 0x0a :: b) with (c :: (a ++ 0x0a :: b)).
  cbn [split_nl]. rewrite IH.
  destruct (c =? 0x0a); [done|].
  pose proof (split_nl_not_nil a) as Hne.
  by destruct (split_nl a).
Qed.

Lemma below_top_join (parts : list (list N)) :
  Forall (fun p => Forall (fun out => startswith out (u "#") = true →
                                      startswith out (u "##") = true)
                     (split_nl p)) parts →
  Forall (fun out => startswith out (u "#") = true →
                     startswith out (u "##") = true)
    (split_nl (join [0x0a; 0x0a] parts)).
Proof.
  induction 1 as [|p parts Hp Hparts IH]; [by repeat constructor|].
  destruct parts as [|p' parts]; [done|].
  change (join [0x0a; 0x0a] (p :: p' :: parts))
    with (p ++ 0x0a :: ([] ++ 0x0a :: join [0x0a; 0x0a] (p' :: parts))).
  rewrite !split_nl_app_lf. apply Forall_app. split; [done|].
  apply Forall_app. split; [by repeat constructor | done].
Qed.

(** X22.  In a merged volume the title is the only top-level heading: when
    the title holds no line feed and no heading of a source file is
    indented, the first line of the merged text is [# <title>] and every
    later line that starts with [#] starts with [##]. *)
Theorem merged_title_only_top_heading (volume_name : list N)
  (cfg : volume_config) (d : gmap (list N) entry) :
  0x0a ∉ default volume_name (title cfg) →
  (∀ f, f ∈ md_files d →
     Forall (fun l => startswith (strip l) (u "#") = true →
                      startswith l (u "#") = true)
       (split_nl (file_text d f))) →
  ∃ rest,
    split_nl (merged_text volume_name cfg d) =
      (u "# " ++ default volume_name (title cfg)) :: rest
    ∧ Forall (fun out => startswith out (u "#") = true →
                         startswith out (u "##") = true) rest.
Proof.
  intros Htitle Hfiles. unfold merged_text.
  set (tl := default volume_name (title cfg)) in *.
  assert (Hhead : no_newline (u "# " ++ tl)).
  { unfold no_newline. rewrite elem_of_app. intros [H|H]; [|done].
    revert H. apply (bool_decide_unpack _). vm_compute. exact I. }
  assert (Hparts : Forall (fun p =>
      Forall (fun out => startswith out (u "#") = true →
                         startswith out (u "##") = true) (split_nl p))
      (map (fun f => demote_headers (file_text d f)) (md_files d))).
  { apply Forall_forall. intros p Hp.
    apply list_elem_of_fmap in Hp as (f & -> & Hf).
    by apply demote_headers_below_top, Hfiles. }
  apply below_top_join in Hparts.
  destruct (map (fun f => demote_headers (file_text d f)) (md_files d))
    as [|p parts] eqn:Hmap.
  - exists [[]]. split; [|by repeat constructor].
    change (join [0x0a; 0x0a] [u "# " ++ tl ++ [0x0a]])
      with ((u "# " ++ tl) ++ 0x0a :: []).
    rewrite split_nl_app_lf. by rewrite split_nl_single.
  - exists ([] :: [] :: split_nl (join [0x0a; 0x0a] (p :: parts))).
    split; [|by repeat constructor].
    change (join [0x0a; 0x0a] ((u "# " ++ tl ++ [0x0a]) :: p :: parts))
      with ((u "# " ++ tl ++ [0x0a]) ++ 0x0a :: 0x0a
            :: join [0x0a; 0x0a] (p :: parts)).
    replace ((u "# " ++ tl ++ [0x0a]) ++ 0x0a :: 0x0a
             :: join [0x0a; 0x0a] (p :: parts))
      with ((u "# " ++ tl) ++ 0x0a
            :: ([] ++ 0x0a :: ([] ++ 0x0a :: join [0x0a; 0x0a] (p :: parts))))
      by (by rewrite <- !app_assoc).
    rewrite !split_nl_app_lf. by rewrite split_nl_single.
Qed.

Lemma merged_title_only_top_heading_witness :
  ∃ rest,
    split_nl (merged_text (u "volume-001") Sample.volume_one Sample.chapters)
      = u "# One" :: rest
    ∧ Forall (fun out => startswith out (u "#") = true →
                         startswith out (u "##") = true) rest.
Proof.
  apply (merged_title_only_top_heading (u "volume-001") Sample.volume_one
           Sample.chapters).
  - apply (bool_decide_unpack _). vm_compute. exact I.
  - intros f Hf. apply elem_of_md_files in Hf as [Hsome Hel].
    unfold file_text, Sample.chapters in *.
    apply lookup_insert_is_Some in Hsome as [<-|[_ Hsome]];
      [repeat constructor; vm_compute; done|].
    apply lookup_insert_is_Some in Hsome as [<-|[_ Hsome]];
      [repeat constructor; vm_compute; done|].
    apply lookup_insert_is_Some in Hsome as [<-|[_ Hsome]]; [done|].
    apply lookup_insert_is_Some in Hsome as [<-|[_ Hsome]]; [done|].
    rewrite lookup_empty in Hsome. by destruct Hsome.
Defined.

End DemoteMore.

(** ** Entity substitution: further properties *)

Module EntitizeMore.
Import Entitize EntitizeFacts.

(** A match is a prefix of the text it is found in. *)
Lemma match_entity_prefix (s : list N) (m : Match) :
  match_entity s = Some m → ∃ rest, s = group0 m ++ rest.
Proof.
  destruct s as [|a [|c t]]; simpl; try done.
  destruct ((a =? 0x26) && is_alpha c); [|done].
  destruct (drop_word t) as [|z r] eqn:Hd; [done|].
  destruct (z =? 0x3b); [|done].
  intros [= <-]. exists r. simpl. do 2 f_equal.
  rewrite <- app_assoc. simpl. rewrite <- Hd. by rewrite take_drop_word.
Qed.

Lemma forallb_take_word (t : list N) : forallb is_word (take_word t) = true.
Proof.
  induction t as [|c t IH]; simpl; [done|].
  destruct (is_word c) eqn:Hc; simpl; [by rewrite Hc | done].
Qed.

(** The name of a match is an identifier. *)
Lemma match_entity_identifier (s : list N) (m : Match) :
  match_entity s = Some m → is_identifier (group1 m) = true.
Proof.
  destruct s as [|a [|c t]]; simpl; try done.
  destruct ((a =? 0x26) && is_alpha c) eqn:Hac; [|done].
  destruct (drop_word t) as [|z r]; [done|].
  destruct (z =? 0x3b); [|done].
  intros [= <-]. simpl. apply andb_prop in Hac as [_ ->].
  apply forallb_take_word.
Qed.

(** A match begins with [&] and holds a [;]. *)
Lemma match_entity_delimiters (s : list N) (m : Match) :
  match_entity s = Some m → 0x26 ∈ s ∧ 0x3b ∈ s.
Proof.
  destruct s as [|a [|c t]]; simpl; try done.
  destruct ((a =? 0x26) && is_alpha c) eqn:Hac; [|done].
  destruct (drop_word t) as [|z r] eqn:Hd; [done|].
  destruct (z =? 0x3b) eqn:Hz; [|done].
  intros _.
  apply andb_prop in Hac as [->%N.eqb_eq _]. apply N.eqb_eq in Hz. subst z.
  split; [by left|].
  do 2 right. rewrite <- (take_drop_word t), Hd.
  apply elem_of_app. right. by left.
Qed.

(** The scan depends on the callback only through its results on matches. *)
Lemma re_sub_entity_ext (repl1 repl2 : Match → list N) :
  (∀ s m, match_entity s = Some m → repl1 m = repl2 m) →
  ∀ s k, re_sub_entity repl1 k s = re_sub_entity repl2 k s.
Proof.
  intros Hext. induction s as [|c s IH]; intros k; [done|].
  cbn [re_sub_entity]. destruct k as [|k]; [|apply IH].
  destruct (match_entity (c :: s)) as [m|] eqn:Hm.
  - by rewrite (Hext _ _ Hm), IH.
  - by rewrite IH.
Qed.

Lemma match_entity_group0_not_nil (s : list N) (m : Match) :
  match_entity s = Some m → group0 m ≠ [].
Proof.
  destruct s as [|a [|c t]]; simpl; try done.
  destruct ((a =? 0x26) && is_alpha c); [|done].
  destruct (drop_word t) as [|z r]; [done|].
  destruct (z =? 0x3b); [|done].
  by intros [= <-].
Qed.

(** Replacing every match by itself gives the text back. *)
Lemma re_sub_entity_group0 (n : nat) :
  ∀ s : list N, (length s ≤ n)%nat → re_sub_entity group0 0 s = s.
Proof.
  induction n as [|n IH]; intros s Hlen.
  - destruct s; [done | simpl in Hlen; lia].
  - destruct s as [|c s]; [done|]. cbn [re_sub_entity].
    destruct (match_entity (c :: s)) as [m|] eqn:Hm.
    + destruct (match_entity_prefix _ _ Hm) as [rest Hrest].
      destruct (group0 m) as [|g0 g] eqn:Hg.
      { by apply match_entity_group0_not_nil in Hm. }
      simpl in Hrest. injection Hrest as <- ->.
      simpl. rewrite Nat.sub_0_r, re_sub_entity_skip.
      rewrite IH; [done|]. simpl in Hlen. rewrite length_app in Hlen. lia.
    + rewrite IH; [done|]. simpl in Hlen. lia.
Qed.

(** X4.  With an empty table every document comes back unchanged. *)
Theorem replace_entities_empty_table (content : list N) :
  replace_entities content ∅ = content.
Proof.
  unfold replace_entities.
  rewrite (re_sub_entity_ext (replace_entity ∅) group0).
  - by apply (re_sub_entity_group0 (length content)).
  - intros s m _. unfold replace_entity. by rewrite lookup_empty.
Qed.

(** X5.  Only identifiers are ever looked up: two tables that agree on every
    identifier give the same output on every document, so an entry whose name
    is not an identifier has no effect. *)
Theorem replace_entities_identifier_keys
  (t1 t2 : gmap (list N) (list N)) (content : list N) :
  (∀ n, is_identifier n = true → t1 !! n = t2 !! n) →
  replace_entities content t1 = replace_entities content t2.
Proof.
  intros Hagree. unfold replace_entities. apply re_sub_entity_ext.
  intros s m Hm. unfold replace_entity.
  by rewrite (Hagree _ (match_entity_identifier _ _ Hm)).
Qed.

Lemma replace_entities_identifier_keys_witness :
  replace_entities (u "&a-b; &ok;")
    (<[u "a-b" := u "!"]> {[ u "ok" := u "+" ]})
  = u "&a-b; +".
Proof.
  refine (eq_trans
    (replace_entities_identifier_keys
       (<[u "a-b" := u "!"]> {[ u "ok" := u "+" ]}) {[ u "ok" := u "+" ]}
       (u "&a-b; &ok;") _) _).
  - intros n Hn. apply lookup_insert_ne. intros <-. discriminate Hn.
  - change (u "&a-b; &ok;") with (u "&a-b; " ++ entity_ref (u "ok") ++ []).
    rewrite replace_entities_ref by done.
    rewrite lookup_singleton_eq. reflexivity.
Defined.

(** X6.  A document without [&], or without [;], comes back unchanged,
    whatever the table. *)
Theorem replace_entities_no_reference
  (entities : gmap (list N) (list N)) (content : list N) :
  0x26 ∉ content ∨ 0x3b ∉ content →
  replace_entities content entities = content.
Proof.
  intros Hno. unfold replace_entities.
  induction content as [|c content IH]; [done|].
  cbn [re_sub_entity].
  destruct (match_entity (c :: content)) as [m|] eqn:Hm.
  - apply match_entity_delimiters in Hm as [Ha Hs]. tauto.
  - rewrite IH; [done|].
    rewrite !not_elem_of_cons in Hno. tauto.
Qed.

Lemma replace_entities_no_reference_witness :
  replace_entities (u "AT&T & co") {[ u "T" := u "x" ]} = u "AT&T & co".
Proof.
  apply replace_entities_no_reference. right.
  apply (bool_decide_unpack _). vm_compute. exact I.
Defined.

Lemma take_word_app_sep (t rest : list N) (c : N) :
  is_word c = false → take_word (t ++ c :: rest) = take_word t.
Proof.
  intros Hc. induction t as [|x t IH]; simpl; [by rewrite Hc|].
  destruct (is_word x); [by rewrite IH | done].
Qed.

Lemma drop_word_app_sep (t rest : list N) (c : N) :
  is_word c = false →
  drop_word (t ++ c :: rest) =
  match drop_word t with
  | [] => c :: rest
  | z :: r => z :: r ++ c :: rest
  end.
Proof.
  intros Hc. induction t as [|x t IH]; simpl; [by rewrite Hc|].
  destruct (is_word x); [exact IH | done].
Qed.

Lemma is_alpha_is_word (c : N) : is_alpha c = true → is_word c = true.
Proof. unfold is_word. by intros ->. Qed.

Lemma match_entity_app_sep (pre rest : list N) (c : N) :
  is_word c = false → c ≠ 0x3b → pre ≠ [] →
  match_entity (pre ++ c :: rest) = match_entity pre.
Proof.
  intros Hc Hsemi Hne. destruct pre as [|a [|x t]]; [done| |].
  - simpl. destruct (is_alpha c) eqn:Ha; [|by rewrite andb_false_r].
    apply is_alpha_is_word in Ha. congruence.
  - simpl. destruct ((a =? 0x26) && is_alpha x); [|done].
    rewrite drop_word_app_sep, take_word_app_sep by done.
    destruct (drop_word t) as [|z r]; simpl; [|done].
    apply N.eqb_neq in Hsemi. by rewrite Hsemi.
Qed.

Lemma re_sub_entity_app_sep (repl : Match → list N) (pre rest : list N)
  (c : N) :
  is_word c = false → c ≠ 0x3b →
  ∀ k : nat, (k ≤ length pre)%nat →
    re_sub_entity repl k (pre ++ c :: rest) =
    re_sub_entity repl k pre ++ re_sub_entity repl 0 (c :: rest).
Proof.
  intros Hc Hsemi. induction pre as [|x pre IH]; intros k Hk.
  - simpl in Hk. by replace k with 0%nat by lia.
  - destruct k as [|k].
    + change ((x :: pre) ++ c :: rest) with (x :: (pre ++ c :: rest)).
      cbn [re_sub_entity].
      change (x :: (pre ++ c :: rest)) with ((x :: pre) ++ c :: rest).
      rewrite match_entity_app_sep by done.
      destruct (match_entity (x :: pre)) as [m|] eqn:Hm.
      * apply match_entity_length in Hm. simpl in Hm.
        rewrite IH by lia. by rewrite app_assoc.
      * rewrite IH by lia. done.
    + simpl in *. apply IH. lia.
Qed.

(** X23.  A reference never spans a character that is not a letter, a digit,
    an underscore, [&] or [;]: at such a character (a space, a line feed,
    ...) the document can be cut, the parts substituted on their own and put
    together again. *)
Theorem replace_entities_splits_at_separator
  (entities : gmap (list N) (list N)) (pre post : list N) (c : N) :
  is_word c = false → c ≠ 0x3b → c ≠ 0x26 →
  replace_entities (pre ++ c :: post) entities =
  replace_entities pre entities ++ c :: replace_entities post entities.
Proof.
  intros Hc Hsemi Hamp. unfold replace_entities.
  rewrite re_sub_entity_app_sep by (done || lia). f_equal.
  cbn [re_sub_entity].
  destruct (match_entity (c :: post)) as [m|] eqn:Hm; [|done].
  destruct post as [|x post]; [done|]. simpl in Hm.
  apply N.eqb_neq in Hamp. by rewrite Hamp in Hm.
Qed.

Lemma replace_entities_splits_at_separator_witness :
  replace_entities (u "&amp" ++ 0x0a :: u ";&amp;") {[ u "amp" := u "&" ]}
  = u "&amp" ++ 0x0a :: u ";&".
Proof.
  refine (eq_trans
    (replace_entities_splits_at_separator {[ u "amp" := u "&" ]}
       (u "&amp") (u ";&amp;") 0x0a eq_refl _ _) _).
  - discriminate.
  - discriminate.
  - vm_compute. reflexivity.
Defined.

End EntitizeMore.

(** ** Style Customizer: further properties *)

Module CustomizeMore.
Import Customize CustomizeFacts.

Section Engine.

Variable re_sub : list N → list N → list N → option (list N).

(** The text emitted so far together with the text still buffered. *)
Lemma flush_identity styles st :
  (∀ segment, apply_styles re_sub segment styles = segment) →
  concat (flush re_sub styles st) =
  concat (out_lines st) ++ concat (buffer st).
Proof.
  intros Hid. unfold flush. destruct (buffer st) as [|b bs] eqn:Hb.
  - by rewrite app_nil_r.
  - rewrite concat_app, Hid. simpl. by rewrite app_nil_r.
Qed.

Lemma scan_identity styles lines :
  (∀ segment, apply_styles re_sub segment styles = segment) →
  ∀ st, (in_fenced st = true → buffer st = []) →
    concat (flush re_sub styles (scan re_sub styles st lines)) =
    concat (out_lines st) ++ concat (buffer st) ++ concat lines.
Proof.
  intros Hid. induction lines as [|l lines IH]; intros st Hinv.
  - simpl. rewrite app_nil_r. by apply flush_identity.
  - unfold scan in *. cbn [foldl]. rewrite IH.
    + unfold step.
      destruct (negb (in_fenced st) && startswith (strip l) (u ":::")).
      * cbn [out_lines buffer]. rewrite concat_app, flush_identity by done.
        simpl. rewrite app_nil_r. by rewrite <- !app_assoc.
      * destruct (in_fenced st) eqn:Hst; cbn [out_lines buffer].
        -- rewrite (Hinv eq_refl), concat_app. simpl.
           rewrite app_nil_r. by rewrite <- !app_assoc.
        -- rewrite concat_app. simpl. rewrite app_nil_r.
           by rewrite <- !app_assoc.
    + by apply buffer_step_inside.
Qed.

(** When no rule changes any text, every document is written back as it is:
    splitting into lines, tracking fences and joining loses nothing. *)
Lemma process_file_identity styles content :
  (∀ segment, apply_styles re_sub segment styles = segment) →
  process_file re_sub content styles = content.
Proof.
  intros Hid. unfold process_file, process_lines.
  rewrite scan_identity by done. simpl.
  apply concat_splitlines_keepends.
Qed.

Lemma apply_styles_flat styles :
  ∀ content,
    apply_styles re_sub content styles =
    foldl (apply_pattern re_sub) content (concat (map snd styles)).
Proof.
  unfold apply_styles.
  induction styles as [|[name pds] styles IH]; intros content; [done|].
  simpl. by rewrite IH, foldl_app.
Qed.

End Engine.

(** X7.  With no effective rule the Style Customizer is the identity: when
    the rule set is empty, or every rule in it has an empty or missing
    pattern or replacement, every document is written back unchanged, fences
    and line endings included. *)
Theorem process_file_without_rules re_sub
  (styles : list (list N * list pattern_def)) (content : list N) :
  Forall (fun style => Forall (fun pd => valid_rule pd = false) (snd style))
    styles →
  process_file re_sub content styles = content.
Proof.
  intros Hall. apply process_file_identity. intros segment.
  rewrite apply_styles_direct. unfold rules_applied_directly.
  replace (List.filter valid_rule (concat (map snd styles))) with
    (@nil pattern_def); [done|].
  induction Hall as [|[name pds] styles Hpds _ IH]; [done|].
  simpl. rewrite List.filter_app, <- IH, app_nil_r.
  clear IH. simpl in Hpds.
  induction Hpds as [|pd pds Hpd _ IH]; [done|]. simpl. by rewrite Hpd.
Qed.

Lemma process_file_without_rules_witness :
  process_file PyRe.re_sub
    (u "b" ++ [0x0d; 0x0a] ++ u "::: b" ++ [0x0a] ++ u "b")
    [(u "s", [Sample.deletion]); (u "t", [])]
  = u "b" ++ [0x0d; 0x0a] ++ u "::: b" ++ [0x0a] ++ u "b".
Proof.
  apply process_file_without_rules.
  repeat constructor.
Defined.

(** X8.  A rule whose pattern or template the regex engine rejects
    ([re.error]) is skipped and the other rules still apply: with or without
    it in the rule set, every document gives the same output. *)
Theorem invalid_regex_rule_skipped re_sub
  (s1 : list (list N * list pattern_def)) (name : list N)
  (p1 : list pattern_def) (pd : pattern_def) (p2 : list pattern_def)
  (s2 : list (list N * list pattern_def)) (content : list N) :
  (∀ text, re_sub (default [] (pattern pd)) (default [] (replacement pd))
             text = None) →
  process_file re_sub content (s1 ++ [(name, p1 ++ [pd] ++ p2)] ++ s2) =
  process_file re_sub content (s1 ++ [(name, p1 ++ p2)] ++ s2).
Proof.
  intros Herr. unfold process_file. apply process_lines_ext.
  intros segment. unfold apply_styles.
  rewrite !foldl_app. simpl. rewrite !foldl_app. simpl.
  assert (Hskip : ∀ text, apply_pattern re_sub text pd = text).
  { intros text. unfold apply_pattern. rewrite Herr.
    by destruct (truthy _ && truthy _). }
  by rewrite Hskip.
Qed.

Lemma invalid_regex_rule_skipped_witness :
  process_file PyRe.re_sub (u "a(a")
    [(u "s", [Sample.unclosed_group; Sample.a_to_Z])]
  = u "Z(Z".
Proof.
  refine (eq_trans
    (invalid_regex_rule_skipped PyRe.re_sub [] (u "s") []
       Sample.unclosed_group [Sample.a_to_Z] [] (u "a(a") _) _).
  - intros text. reflexivity.
  - vm_compute. reflexivity.
Defined.

(** X9.  Only the order of the rules counts: the names of the styles and the
    way the rules are grouped into styles have no effect.  Every rule set
    gives the same output as the single style that lists all its rules in
    order. *)
Theorem style_grouping_irrelevant re_sub
  (styles : list (list N * list pattern_def)) (name content : list N) :
  process_file re_sub content styles =
  process_file re_sub content [(name, concat (map snd styles))].
Proof.
  unfold process_file. apply process_lines_ext. intros segment.
  rewrite !apply_styles_flat. simpl. by rewrite app_nil_r.
Qed.

End CustomizeMore.

(** ** Merger: further properties *)

Module MergeMore.
Import Merge MergeFacts.

Implicit Types (fs : gmap (list (list N)) (gmap (list N) entry)).
Implicit Types (p q dir input_dir output_dir : list (list N)).
Implicit Types (name content volume_name : list N).
Implicit Types (cfg : volume_config).

Lemma read_text_ensure_dir fs p dir name :
  read_text (ensure_dir fs p) dir name = read_text fs dir name.
Proof.
  unfold ensure_dir, read_text. destruct (fs !! p) eqn:Hp; [done|].
  destruct (decide (p = dir)) as [->|Hne].
  - by rewrite lookup_insert_eq, Hp, lookup_empty.
  - by rewrite lookup_insert_ne.
Qed.

Lemma read_text_mkdir_parents p fs dir name :
  read_text (mkdir_parents p fs) dir name = read_text fs dir name.
Proof.
  unfold mkdir_parents. generalize (map (fun k => take k p) (seq 0 (S (length p)))).
  intros ps. revert fs. induction ps as [|q ps IH]; intros fs; [done|].
  simpl. by rewrite IH, read_text_ensure_dir.
Qed.

Lemma read_text_write_text_ne fs dir name content dir' name' :
  (dir', name') ≠ (dir, name) →
  read_text (write_text dir name content fs) dir' name' =
  read_text fs dir' name'.
Proof.
  intros Hne. unfold read_text, write_text.
  destruct (decide (dir = dir')) as [->|Hd].
  - rewrite lookup_insert_eq.
    rewrite lookup_insert_ne by congruence.
    destruct (fs !! dir'); [done | apply lookup_empty].
  - by rewrite lookup_insert_ne.
Qed.


Lemma lookup_ensure_dir_Some fs p q (d : gmap (list N) entry) :
  fs !! q = Some d → ensure_dir fs p !! q = Some d.
Proof.
  unfold ensure_dir. destruct (fs !! p) eqn:Hp; [done|].
  intros Hq. rewrite lookup_insert_ne; [done|]. intros ->. congruence.
Qed.

Lemma lookup_mkdir_parents_Some p fs q (d : gmap (list N) entry) :
  fs !! q = Some d → mkdir_parents p fs !! q = Some d.
Proof.
  unfold mkdir_parents. generalize (map (fun k => take k p) (seq 0 (S (length p)))).
  intros ps. revert fs. induction ps as [|r ps IH]; intros fs Hq; [done|].
  simpl. by apply IH, lookup_ensure_dir_Some.
Qed.

Lemma is_Some_write_text fs dir name content q :
  is_Some (fs !! q) → is_Some (write_text dir name content fs !! q).
Proof.
  unfold write_text. intros Hq. rewrite lookup_insert_is_Some.
  destruct (decide (dir = q)); auto.
Qed.

(** X10.  [merge_volume] touches nothing but the merged file: every other
    file reads the same afterwards, the sources included, and no directory
    disappears. *)
Theorem merge_volume_frame volume_name cfg input_dir output_dir fs
  (fs' : gmap (list (list N)) (gmap (list N) entry)) :
  merge_volume volume_name cfg input_dir output_dir fs = Some fs' →
  (∀ dir name, (dir, name) ≠ (output_dir, volume_name ++ u ".md") →
     read_text fs' dir name = read_text fs dir name)
  ∧ (∀ q, is_Some (fs !! q) → is_Some (fs' !! q)).
Proof.
  unfold merge_volume.
  destruct (fs !! volume_input_dir volume_name cfg input_dir) as [d|];
    [|by intros [= <-]].
  destruct (md_files d) as [|f1 names]; [by intros [= <-]|].
  destruct (read_demoted d (f1 :: names)) as [demoted|]; [|done].
  intros [= <-]. split.
  - intros dir name Hne.
    by rewrite read_text_write_text_ne, read_text_mkdir_parents.
  - intros q [dq Hq]. apply is_Some_write_text.
    rewrite (lookup_mkdir_parents_Some _ _ _ _ Hq). eauto.
Qed.

Lemma merge_volume_frame_witness :
  ∃ fs', merge_volume (u "volume-001") Sample.volume_one [u "book"]
           [u "book"; u "obj"] Sample.book = Some fs'
    ∧ read_text fs' [u "book"; u "volume-001"] (u "a.md") =
      Some (File (u "# A" ++ [0x0a] ++ u "text")).
Proof.
  destruct (merge_volume (u "volume-001") Sample.volume_one [u "book"]
              [u "book"; u "obj"] Sample.book) as [fs'|] eqn:Hm;
    [|vm_compute in Hm; discriminate].
  exists fs'. split; [reflexivity|].
  rewrite (proj1 (merge_volume_frame _ _ _ _ _ _ Hm)) by discriminate.
  reflexivity.
Defined.

(** X11.  A volume directory that holds no [.md] file other than [.tmp.md]
    ones is skipped: nothing is read, written or raised. *)
Theorem merge_volume_no_eligible volume_name cfg input_dir output_dir fs
  (d : gmap (list N) entry) :
  fs !! volume_input_dir volume_name cfg input_dir = Some d →
  (∀ f, is_Some (d !! f) → eligible f = false) →
  merge_volume volume_name cfg input_dir output_dir fs = Some fs.
Proof.
  intros Hd Hnone. unfold merge_volume. rewrite Hd.
  destruct (md_files d) as [|f1 names] eqn:Hfiles; [done|].
  assert (Hin : f1 ∈ md_files d) by (rewrite Hfiles; by left).
  apply elem_of_md_files in Hin as [Hsome Hel].
  by rewrite (Hnone _ Hsome) in Hel.
Qed.

Lemma merge_volume_no_eligible_witness :
  merge_volume (u "volume-001") Sample.volume_one [u "book"]
    [u "book"; u "obj"] Sample.draft_book = Some Sample.draft_book.
Proof.
  apply (merge_volume_no_eligible _ _ _ _ _ Sample.drafts).
  - apply lookup_singleton_eq.
  - intros f Hf. unfold Sample.drafts in Hf.
    apply lookup_insert_is_Some in Hf as [<-|[_ Hf]]; [reflexivity|].
    apply lookup_insert_is_Some in Hf as [<-|[_ Hf]]; [reflexivity|].
    rewrite lookup_empty in Hf. by destruct Hf.
Defined.

Lemma lookup_ensure_dir_None fs p q :
  fs !! q = None → q ≠ p → ensure_dir fs p !! q = None.
Proof.
  unfold ensure_dir. intros Hq Hne. destruct (fs !! p); [done|].
  by rewrite lookup_insert_ne.
Qed.

Lemma lookup_mkdir_parents_None p fs q :
  fs !! q = None → ¬ q `prefix_of` p → mkdir_parents p fs !! q = None.
Proof.
  intros Hq Hpre. unfold mkdir_parents.
  assert (Hps : Forall (fun r => r `prefix_of` p)
                  (map (fun k => take k p) (seq 0 (S (length p))))).
  { generalize (seq 0 (S (length p))). intros ks.
    induction ks as [|k ks IH]; constructor; [apply prefix_take | done]. }
  revert Hps fs Hq.
  generalize (map (fun k => take k p) (seq 0 (S (length p)))). intros ps Hps.
  induction Hps as [|r ps Hr _ IH]; intros fs Hq; [done|].
  simpl. apply IH, lookup_ensure_dir_None; [done|]. by intros ->.
Qed.

(** A directory that is absent and is not on the way to the output directory
    stays absent. *)
Lemma merge_volume_absent volume_name cfg input_dir output_dir fs
  (fs' : gmap (list (list N)) (gmap (list N) entry)) q :
  merge_volume volume_name cfg input_dir output_dir fs = Some fs' →
  fs !! q = None → ¬ q `prefix_of` output_dir → fs' !! q = None.
Proof.
  unfold merge_volume.
  destruct (fs !! volume_input_dir volume_name cfg input_dir) as [d|];
    [|by intros [= <-]].
  destruct (md_files d) as [|f1 names]; [by intros [= <-]|].
  destruct (read_demoted d (f1 :: names)) as [demoted|]; [|done].
  intros [= <-] Hq Hpre. unfold write_text.
  rewrite lookup_insert_ne by (by intros ->).
  by apply lookup_mkdir_parents_None.
Qed.

Lemma merge_volumes_absent (volumes : list (list N * volume_config))
  input_dir output_dir q :
  ¬ q `prefix_of` output_dir →
  ∀ fs (fs' : gmap (list (list N)) (gmap (list N) entry)) (b : bool),
    merge_volumes volumes input_dir output_dir fs = (fs', b) →
    fs !! q = None → fs' !! q = None.
Proof.
  intros Hpre. induction volumes as [|[name cfg] volumes IH];
    intros fs fs' b; simpl.
  - by intros [= <- <-].
  - destruct (merge_volume name cfg input_dir output_dir fs) as [fs1|] eqn:Hm.
    + intros Hrest Hq. apply (IH _ _ _ Hrest).
      by apply (merge_volume_absent _ _ _ _ _ _ _ Hm).
    + by intros [= <- <-].
Qed.

Lemma merge_volumes_app (l1 l2 : list (list N * volume_config))
  input_dir output_dir :
  ∀ fs, merge_volumes (l1 ++ l2) input_dir output_dir fs =
        match merge_volumes l1 input_dir output_dir fs with
        | (fs1, true) => merge_volumes l2 input_dir output_dir fs1
        | (fs1, false) => (fs1, false)
        end.
Proof.
  induction l1 as [|[name cfg] l1 IH]; intros fs; simpl; [done|].
  destruct (merge_volume name cfg input_dir output_dir fs); [apply IH|done].
Qed.

(** X12.  A volume whose input directory does not exist is skipped without
    any effect on the others: the run ends with the same exit status and the
    same files as if the volume were not listed (the directory must not lie
    on the path of the output directory, which the run creates). *)
Theorem missing_volume_dir_skipped
  (l1 l2 : list (list N * volume_config)) volume_name cfg
  (args : parsed_args) (cwd : list (list N)) fs :
  truthy (default [] (volume args)) = false →
  l1 ++ l2 ≠ [] →
  fs !! volume_input_dir volume_name cfg (default cwd (input args)) = None →
  ¬ volume_input_dir volume_name cfg (default cwd (input args))
    `prefix_of` default cwd (output args) →
  main (Some (l1 ++ (volume_name, cfg) :: l2)) args cwd fs =
  main (Some (l1 ++ l2)) args cwd fs.
Proof.
  intros Hv Hne Habs Hpre. unfold main.
  assert (Hloop :
    merge_volumes (l1 ++ (volume_name, cfg) :: l2)
      (default cwd (input args)) (default cwd (output args)) fs =
    merge_volumes (l1 ++ l2)
      (default cwd (input args)) (default cwd (output args)) fs).
  { rewrite !merge_volumes_app.
    destruct (merge_volumes l1 _ _ fs) as [fs1 [|]] eqn:H1; [|done].
    simpl. rewrite merge_volume_skips_missing; [done|].
    by apply (merge_volumes_absent _ _ _ _ Hpre _ _ _ H1). }
  destruct (l1 ++ (volume_name, cfg) :: l2) as [|v0 vs] eqn:Hl;
    [by destruct l1|].
  destruct (l1 ++ l2) as [|w0 ws] eqn:Hl'; [done|].
  by rewrite Hv, Hloop.
Qed.

Lemma missing_volume_dir_skipped_witness :
  main (Some [(u "volume-002", Sample.volume_two);
              (u "volume-001", Sample.volume_one)])
    Sample.output_obj [u "book"] Sample.book
  = main (Some [(u "volume-001", Sample.volume_one)])
      Sample.output_obj [u "book"] Sample.book.
Proof.
  apply (missing_volume_dir_skipped [] [(u "volume-001", Sample.volume_one)]).
  - reflexivity.
  - discriminate.
  - apply lookup_singleton_ne. discriminate.
  - intros [k Hk]. discriminate Hk.
Defined.







End MergeMore.

(** ** Entity table loading *)

Module EntitizeLoadFacts.
Import Entitize EntitizeLoad EntitizeFacts.

Section Int.

Variable int16 : list N → option N.

Implicit Types (t entities : gmap (list N) (list N)).
Implicit Types (line name : list N) (lines : list (list N)).

(** The loop body does what [effect_of] says. *)
Lemma load_line_effect entities line :
  load_line int16 entities line =
  match effect_of int16 line with
  | Ignored => Some entities
  | Defines name c => Some (<[name := [c]]> entities)
  | Aborts => None
  end.
Proof.
  unfold load_line, effect_of. cbv zeta.
  destruct (truthy (strip line) && negb (startswith (strip line) (u "#")));
    [|done].
  destruct (split (strip line)) as [|hex_code [|name rest]]; [done|done|].
  destruct (startswith hex_code (u "0x")); [|done].
  destruct (int16 hex_code) as [n|]; [|done].
  by destruct (chr n).
Qed.

Lemma load_lines_app (l1 l2 : list (list N)) :
  ∀ t, load_lines int16 t (l1 ++ l2) =
       match load_lines int16 t l1 with
       | Some t1 => load_lines int16 t1 l2
       | None => None
       end.
Proof.
  induction l1 as [|l l1 IH]; intros t; simpl; [done|].
  destruct (load_line int16 t l); [apply IH | done].
Qed.

(** X14.  Every entry of a loaded table is one character of the Unicode
    range, and it comes from a line of the file that defines that name. *)
Theorem loaded_entries_are_characters (content : list N) t name
  (e : list N) :
  load_entities int16 content = Some t →
  t !! name = Some e →
  ∃ c line, e = [c] ∧ c < 0x110000
            ∧ line ∈ file_lines content
            ∧ effect_of int16 line = Defines name c.
Proof.
  unfold load_entities.
  assert (Hgen : ∀ lines t0 t1,
    load_lines int16 t0 lines = Some t1 →
    t1 !! name = Some e →
    t0 !! name = Some e
    ∨ ∃ c line, e = [c] ∧ c < 0x110000 ∧ line ∈ lines
                ∧ effect_of int16 line = Defines name c).
  { induction lines as [|l lines IH]; intros t0 t1; simpl.
    - intros [= <-]. auto.
    - rewrite load_line_effect.
      destruct (effect_of int16 l) as [|n c|] eqn:Heff; [| |done].
      + intros Hl He. destruct (IH _ _ Hl He) as [?|(c & line & ? & ? & ? & ?)];
          [by left|].
        right. exists c, line. repeat split; try done. by right.
      + intros Hl He.
        destruct (IH _ _ Hl He) as [H0|(c' & line & ? & ? & ? & ?)].
        * destruct (decide (n = name)) as [->|Hne].
          -- rewrite lookup_insert_eq in H0. injection H0 as <-.
             right. exists c, l. repeat split; try done; [|by left].
             unfold effect_of in Heff. cbv zeta in Heff.
             destruct (truthy _ && negb _); [|done].
             destruct (split (strip l)) as [|h [|nm r]]; try done.
             destruct (startswith h (u "0x")); [|done].
             destruct (int16 h) as [k|]; [|done].
             unfold chr in Heff. destruct (N.ltb_spec k 0x110000).
             ++ by injection Heff as _ <-.
             ++ by destruct (k <? 0x80000000).
          -- rewrite lookup_insert_ne in H0 by done. by left.
        * right. exists c', line. repeat split; try done. by right. }
  intros Hload He.
  destruct (Hgen _ _ _ Hload He) as [H0|H1]; [|done].
  by rewrite lookup_empty in H0.
Qed.

(** X15.  Lines that define nothing can be taken out of the file: a blank
    line, a [#] comment, a line with fewer than two fields, a code that does
    not start with [0x], that [int] rejects, or that lies above the Unicode
    range.  The table is the same with or without such a line. *)
Theorem ignored_line_removable (content content' : list N)
  (l1 : list (list N)) line (l2 : list (list N)) :
  file_lines content = l1 ++ line :: l2 →
  file_lines content' = l1 ++ l2 →
  truthy (strip line) = false
  ∨ startswith (strip line) (u "#") = true
  ∨ (length (split (strip line)) < 2)%nat
  ∨ (∃ hex_code rest, split (strip line) = hex_code :: rest
       ∧ (startswith hex_code (u "0x") = false
          ∨ int16 hex_code = None
          ∨ ∃ n, int16 hex_code = Some n
                 ∧ 0x110000 ≤ n ∧ n < 0x80000000)) →
  load_entities int16 content = load_entities int16 content'.
Proof.
  intros Hc Hc' Hcase. unfold load_entities. rewrite Hc, Hc'.
  rewrite !load_lines_app.
  destruct (load_lines int16 ∅ l1) as [t1|]; [|done].
  simpl. rewrite load_line_effect.
  replace (effect_of int16 line) with Ignored; [done|].
  unfold effect_of. cbv zeta.
  destruct Hcase as [-> | [-> | [Hlen | (h & rest & Hs & Hh)]]]; [done| |..].
  - by rewrite andb_false_r.
  - destruct (truthy _ && negb _); [|done].
    destruct (split (strip line)) as [|h [|nm r]]; [done|done|].
    simpl in Hlen. lia.
  - destruct (truthy _ && negb _); [|done]. rewrite Hs.
    destruct rest as [|nm r]; [done|].
    destruct Hh as [-> | [-> | (n & -> & Hlo & Hhi)]].
    + done.
    + by destruct (startswith h (u "0x")).
    + destruct (startswith h (u "0x")); [|done]. unfold chr.
      destruct (N.ltb_spec n 0x110000); [lia|].
      destruct (N.ltb_spec n 0x80000000); [done|lia].
Qed.

Lemma load_lines_keeps name (lines : list (list N)) :
  Forall (fun l => ∀ c', effect_of int16 l ≠ Defines name c') lines →
  ∀ t0 t1, load_lines int16 t0 lines = Some t1 → t1 !! name = t0 !! name.
Proof.
  induction 1 as [|l lines Hl _ IH]; intros t0 t1; simpl.
  - by intros [= <-].
  - rewrite load_line_effect.
    destruct (effect_of int16 l) as [|n c'|] eqn:Hef; [| |done].
    + apply IH.
    + intros Hrest. rewrite (IH _ _ Hrest).
      apply lookup_insert_ne. intros ->. by apply (Hl c').
Qed.

Lemma lookup_last_definition (content : list N) t
  (l1 : list (list N)) line (l2 : list (list N)) name (c : N) :
  load_entities int16 content = Some t →
  file_lines content = l1 ++ line :: l2 →
  effect_of int16 line = Defines name c →
  Forall (fun l => ∀ c', effect_of int16 l ≠ Defines name c') l2 →
  t !! name = Some [c].
Proof.
  unfold load_entities. intros Hload Hc Heff Hlater.
  rewrite Hc, load_lines_app in Hload.
  destruct (load_lines int16 ∅ l1) as [t1|]; [|done].
  simpl in Hload. rewrite load_line_effect, Heff in Hload.
  rewrite (load_lines_keeps _ _ Hlater _ _ Hload). apply lookup_insert_eq.
Qed.

(** X16.  The last definition of a name wins: when the load succeeds and
    no line after [line] defines [name], the table binds [name] to the
    character of [line]. *)
Theorem last_definition_wins (content : list N) t
  (l1 : list (list N)) line (l2 : list (list N)) name (c : N) :
  load_entities int16 content = Some t →
  file_lines content = l1 ++ line :: l2 →
  effect_of int16 line = Defines name c →
  Forall (fun l => ∀ c', effect_of int16 l ≠ Defines name c') l2 →
  t !! name = Some [c].
Proof. apply lookup_last_definition. Qed.

(** X17.  A code that does not fit a C [int] aborts the whole load: [chr]
    raises [OverflowError], which [except ValueError] does not catch.  One
    such line anywhere in the file, and no table is returned. *)
Theorem oversized_code_aborts_load (content : list N)
  (l1 : list (list N)) line (l2 : list (list N))
  (hex_code name : list N) (rest : list (list N)) (n : N) :
  file_lines content = l1 ++ line :: l2 →
  truthy (strip line) = true →
  startswith (strip line) (u "#") = false →
  split (strip line) = hex_code :: name :: rest →
  startswith hex_code (u "0x") = true →
  int16 hex_code = Some n →
  0x80000000 ≤ n →
  load_entities int16 content = None.
Proof.
  intros Hc Ht Hhash Hs Hx Hint Hn. unfold load_entities.
  rewrite Hc, load_lines_app.
  destruct (load_lines int16 ∅ l1) as [t1|]; [|done].
  simpl. unfold load_line. cbv zeta. rewrite Ht, Hhash, Hs, Hx, Hint.
  unfold chr. destruct (N.ltb_spec n 0x110000); [lia|].
  destruct (N.ltb_spec n 0x80000000); [lia|done].
Qed.

(** X18.  Loading and substituting compose: when the definitions file loads
    and its last definition of the identifier [name] gives the character
    [c], every reference [&name;] in any document becomes [c]. *)
Theorem loaded_entity_replaced (definitions : list N) t
  (l1 : list (list N)) line (l2 : list (list N)) name (c : N)
  (pre post : list N) :
  load_entities int16 definitions = Some t →
  file_lines definitions = l1 ++ line :: l2 →
  effect_of int16 line = Defines name c →
  Forall (fun l => ∀ c', effect_of int16 l ≠ Defines name c') l2 →
  is_identifier name = true →
  replace_entities (pre ++ entity_ref name ++ post) t =
  replace_entities pre t ++ [c] ++ replace_entities post t.
Proof.
  intros Hload Hc Heff Hlater Hid.
  rewrite replace_entities_ref by done.
  assert (Ht : t !! name = Some [c])
    by (by eapply lookup_last_definition).
  by rewrite Ht.
Qed.

End Int.

Lemma ignored_line_removable_witness :
  load_entities PyInt.int16
    (u "0xE9 eacute" ++ [0x0a] ++ u "# comment" ++ [0x0a] ++ u "0x26 amp")
  = load_entities PyInt.int16
      (u "0xE9 eacute" ++ [0x0a] ++ u "0x26 amp").
Proof.
  apply (ignored_line_removable PyInt.int16 _ _
           [u "0xE9 eacute" ++ [0x0a]] (u "# comment" ++ [0x0a])
           [u "0x26 amp"]).
  - reflexivity.
  - reflexivity.
  - right; left. reflexivity.
Defined.


Lemma loaded_entries_are_characters_witness :
  ∃ t c line,
    EntitizeLoad.load_entities PyInt.int16 (u "0x26 amp") = Some t
    ∧ t !! u "amp" = Some [c] ∧ c < 0x110000
    ∧ line ∈ file_lines (u "0x26 amp").
Proof.
  destruct (load_entities PyInt.int16 (u "0x26 amp")) as [t|] eqn:Hload;
    [|vm_compute in Hload; discriminate].
  assert (Ht : t !! u "amp" = Some [0x26]).
  { apply (lookup_last_definition PyInt.int16 (u "0x26 amp") t
             [] (u "0x26 amp") [] (u "amp") 0x26 Hload);
      [reflexivity | reflexivity | constructor]. }
  destruct (loaded_entries_are_characters PyInt.int16 (u "0x26 amp") t
              (u "amp") [0x26] Hload Ht) as (c & line & Hc & Hlt & Hin & _).
  exists t, c, line. rewrite Ht, Hc. done.
Defined.

Lemma last_definition_wins_witness :
  ∃ t, load_entities PyInt.int16 Sample.definitions = Some t
       ∧ t !! u "eacute" = Some [0xe9].
Proof.
  destruct (load_entities PyInt.int16 Sample.definitions) as [t|] eqn:Hload;
    [|vm_compute in Hload; discriminate].
  exists t. split; [reflexivity|].
  apply (last_definition_wins PyInt.int16 Sample.definitions t
           [u "# Latin" ++ [0x0a]; u "0x0045 eacute" ++ [0x0a]; [0x0a]]
           (u "0x00E9 eacute  LATIN SMALL LETTER E WITH ACUTE" ++ [0x0a])
           [u "0x26" ++ [0x0a]; u "00E8 egrave" ++ [0x0a];
            u "0x110000 toobig" ++ [0x0a]; u "0x26 amp"]).
  - exact Hload.
  - reflexivity.
  - reflexivity.
  - repeat constructor; intros c'; vm_compute; discriminate.
Defined.

Lemma oversized_code_aborts_load_witness :
  load_entities PyInt.int16
    (u "0xE9 eacute" ++ [0x0a] ++ u "0x80000000 huge" ++ [0x0a]) = None.
Proof.
  apply (oversized_code_aborts_load PyInt.int16 _
           [u "0xE9 eacute" ++ [0x0a]] (u "0x80000000 huge" ++ [0x0a]) []
           (u "0x80000000") (u "huge") [] 0x80000000);
    reflexivity.
Defined.

Lemma loaded_entity_replaced_witness :
  ∃ t, load_entities PyInt.int16 (u "0x00E9 eacute") = Some t
       ∧ replace_entities (u "caf&eacute;") t = u "caf" ++ [0xe9].
Proof.
  destruct (load_entities PyInt.int16 (u "0x00E9 eacute")) as [t|] eqn:Hload;
    [|vm_compute in Hload; discriminate].
  exists t. split; [reflexivity|].
  change (u "caf&eacute;") with (u "caf" ++ entity_ref (u "eacute") ++ []).
  rewrite (loaded_entity_replaced PyInt.int16 (u "0x00E9 eacute") t
             [] (u "0x00E9 eacute") [] (u "eacute") 0xe9 (u "caf") []
             Hload eq_refl eq_refl (Forall_nil_2 _) eq_refl).
  reflexivity.
Defined.

End EntitizeLoadFacts.

(** ** Stages on files *)

Module StageFacts.
Import Merge Files MergeFacts MergeMore.

Implicit Types (fs : gmap (list (list N)) (gmap (list N) entry)).
Implicit Types (dir output_dir : list (list N)) (name content : list N).
Implicit Types (f g : list (list N) * list N).
Implicit Types (t entities : gmap (list N) (list N)).

Lemma read_text_open_write_ne f content fs
  (fs' : gmap (list (list N)) (gmap (list N) entry)) (b : bool) dir name :
  open_write f content fs = (fs', b) →
  (dir, name) ≠ (f.1, f.2) →
  read_text fs' dir name = read_text fs dir name.
Proof.
  unfold open_write. destruct (encodable content); intros [= <- <-] Hne;
    by apply read_text_write_text_ne.
Qed.

Lemma read_text_open_write f content fs
  (fs' : gmap (list (list N)) (gmap (list N) entry)) :
  open_write f content fs = (fs', true) →
  read_text fs' f.1 f.2 = Some (File (universal_newlines content)).
Proof.
  unfold open_write. destruct (encodable content); intros [= <-].
  apply read_text_write_text.
Qed.


(** [process_file] of the Entity Substituter touches only its output file. *)
Lemma entitize_process_file_frame g output_dir t fs
  (fs' : gmap (list (list N)) (gmap (list N) entry))
  (r : option (list (list N) * list N)) dir name :
  EntitizeIO.process_file g output_dir t fs = (fs', r) →
  (dir, name) ≠ (output_dir, g.2) →
  read_text fs' dir name = read_text fs dir name.
Proof.
  unfold EntitizeIO.process_file.
  destruct (open_read fs g) as [content|]; [|by intros [= <- <-]].
  cbv zeta.
  destruct (open_write _ _ _) as [fs1 b] eqn:Hw.
  intros Hfs Hne.
  assert (fs' = fs1) as -> by (destruct b; by injection Hfs).
  rewrite (read_text_open_write_ne _ _ _ _ _ _ _ Hw) by done.
  apply read_text_mkdir_parents.
Qed.

Lemma entitize_process_file_written g output_dir t fs
  (fs' : gmap (list (list N)) (gmap (list N) entry))
  (o : list (list N) * list N) :
  EntitizeIO.process_file g output_dir t fs = (fs', Some o) →
  ∃ content, open_read fs g = Some content
    ∧ read_text fs' output_dir g.2 =
      Some (File (universal_newlines (Entitize.replace_entities content t))).
Proof.
  unfold EntitizeIO.process_file.
  destruct (open_read fs g) as [content|]; [|done]. cbv zeta.
  destruct (open_write _ _ _) as [fs1 [|]] eqn:Hw; [|done].
  intros [= <- _]. exists content. split; [done|].
  apply (read_text_open_write _ _ _ _ Hw).
Qed.

Lemma exists_file_read fs g
  (fs' : gmap (list (list N)) (gmap (list N) entry)) :
  read_text fs' g.1 g.2 = read_text fs g.1 g.2 →
  exists_file fs' g = exists_file fs g.
Proof. unfold exists_file. by intros ->. Qed.

Lemma open_read_read fs g
  (fs' : gmap (list (list N)) (gmap (list N) entry)) :
  read_text fs' g.1 g.2 = read_text fs g.1 g.2 →
  open_read fs' g = open_read fs g.
Proof. unfold open_read. by intros ->. Qed.

(** The loop leaves everything outside the output directory alone. *)
Lemma entitize_process_files_frame t output_dir
  (files : list (list (list N) * list N)) :
  ∀ fs (fs' : gmap (list (list N)) (gmap (list N) entry)) (b : bool) dir name,
    EntitizeIO.process_files t output_dir files fs = (fs', b) →
    dir ≠ output_dir →
    read_text fs' dir name = read_text fs dir name.
Proof.
  induction files as [|g files IH]; intros fs fs' b dir name; simpl.
  - by intros [= <- <-].
  - destruct (exists_file fs g); [|apply IH].
    destruct (EntitizeIO.process_file g output_dir t fs) as [fs1 [o|]] eqn:Hp.
    + intros Hrest Hdir. rewrite (IH _ _ _ _ _ Hrest Hdir).
      apply (entitize_process_file_frame _ _ _ _ _ _ _ _ Hp). congruence.
    + intros [= <- <-] Hdir.
      apply (entitize_process_file_frame _ _ _ _ _ _ _ _ Hp). congruence.
Qed.

(** Inputs of another name, and inputs that do not exist, leave the output
    file of [name] alone. *)
Lemma entitize_process_files_keep t output_dir name
  (files : list (list (list N) * list N)) :
  Forall (fun g => g.1 ≠ output_dir) files →
  ∀ fs (fs' : gmap (list (list N)) (gmap (list N) entry)) (b : bool),
    Forall (fun g => g.2 ≠ name ∨ exists_file fs g = false) files →
    EntitizeIO.process_files t output_dir files fs = (fs', b) →
    read_text fs' output_dir name = read_text fs output_dir name.
Proof.
  induction 1 as [|g files Hg Hfiles IH]; intros fs fs' b Hother; simpl.
  - by intros [= <- <-].
  - inversion Hother as [|? ? Hone Hrest]; subst.
    destruct (exists_file fs g) eqn:Hex; [|by apply IH].
    destruct Hone as [Hname|?]; [|congruence].
    destruct (EntitizeIO.process_file g output_dir t fs) as [fs1 [o|]] eqn:Hp.
    + intros Hloop. rewrite (IH fs1 fs' b); [| |done].
      * apply (entitize_process_file_frame _ _ _ _ _ _ _ _ Hp). congruence.
      * eapply Forall_impl; [apply Forall_and; split;
                              [exact Hrest | exact Hfiles]|].
        intros h [[?|Hh] Hdir]; [by left|]. right.
        rewrite <- Hh. apply exists_file_read.
        apply (entitize_process_file_frame _ _ _ _ _ _ _ _ Hp). congruence.
    + intros [= <- <-].
      apply (entitize_process_file_frame _ _ _ _ _ _ _ _ Hp). congruence.
Qed.

Lemma entitize_process_files_app t output_dir
  (l1 l2 : list (list (list N) * list N)) :
  ∀ fs, EntitizeIO.process_files t output_dir (l1 ++ l2) fs =
        match EntitizeIO.process_files t output_dir l1 fs with
        | (fs1, true) => EntitizeIO.process_files t output_dir l2 fs1
        | (fs1, false) => (fs1, false)
        end.
Proof.
  induction l1 as [|g l1 IH]; intros fs; simpl; [done|].
  destruct (exists_file fs g); [|apply IH].
  destruct (EntitizeIO.process_file g output_dir t fs) as [fs1 [o|]];
    [apply IH | done].
Qed.

(** X19.  The Entity Substituter names its outputs by base name only.  After
    a run that ends with status 0, the output file named like an input [f]
    reads as the substituted text of [f] (carriage returns that the table
    put in read as line feeds), provided [f] is the last existing input of
    that name: earlier inputs of the same name are overwritten, and inputs
    that do not exist are skipped.  (No input may lie in the output
    directory.) *)
Theorem entitize_outputs_by_base_name (int16 : list N → option N)
  (args : EntitizeIO.parsed_args)
  (cwd : list (list N)) fs
  (fs' : gmap (list (list N)) (gmap (list N) entry))
  (definitions : list N) t
  (l1 : list (list (list N) * list N)) f
  (l2 : list (list (list N) * list N)) content :
  EntitizeIO.main int16 args cwd fs = (0, fs') →
  open_read fs (EntitizeIO.entities_file args) = Some definitions →
  EntitizeLoad.load_entities int16 definitions = Some t →
  EntitizeIO.files args = l1 ++ f :: l2 →
  open_read fs f = Some content →
  Forall (fun g => g.1 ≠ default cwd (EntitizeIO.output args))
    (EntitizeIO.files args) →
  Forall (fun g => g.2 ≠ f.2 ∨ exists_file fs g = false) l2 →
  read_text fs' (default cwd (EntitizeIO.output args)) f.2 =
  Some (File (universal_newlines (Entitize.replace_entities content t))).
Proof.
  intros Hmain Hdefs Hload Hfiles Hf Hout Hlast.
  unfold EntitizeIO.main in Hmain. rewrite Hdefs, Hload in Hmain.
  destruct (exists_file fs (EntitizeIO.entities_file args)); [|done].
  cbv zeta in Hmain. set (out := default cwd (EntitizeIO.output args)) in *.
  destruct (EntitizeIO.process_files t out (EntitizeIO.files args) fs)
    as [fs2 [|]] eqn:Hloop; [|done].
  injection Hmain as <-.
  rewrite Hfiles in Hloop, Hout.
  apply Forall_app in Hout as [Hout1 Hout2].
  inversion Hout2 as [|? ? Hfdir Hout3]; subst.
  rewrite entitize_process_files_app in Hloop.
  destruct (EntitizeIO.process_files t out l1 fs) as [fsa [|]] eqn:H1; [|done].
  assert (Hread : ∀ g, g.1 ≠ out → read_text fsa g.1 g.2 = read_text fs g.1 g.2).
  { intros g Hg. by apply (entitize_process_files_frame _ _ _ _ _ _ _ _ H1). }
  simpl in Hloop.
  assert (Hfa : open_read fsa f = Some content).
  { rewrite <- Hf. by apply open_read_read, Hread. }
  assert (Hex : exists_file fsa f = true).
  { unfold exists_file. unfold open_read in Hfa.
    by destruct (read_text fsa f.1 f.2). }
  rewrite Hex in Hloop.
  destruct (EntitizeIO.process_file f out t fsa) as [fsb [o|]] eqn:Hp; [|done].
  destruct (entitize_process_file_written _ _ _ _ _ _ Hp)
    as (content' & Hc' & Hwritten).
  assert (content' = content) as -> by congruence.
  rewrite <- Hwritten.
  apply (entitize_process_files_keep t out f.2 l2 Hout3 fsb fs2 true);
    [|done].
  eapply Forall_impl; [apply Forall_and; split; [exact Hlast|exact Hout3]|].
  intros h [[?|Hh] Hdir]; [by left|]. right.
  rewrite <- Hh. apply exists_file_read.
  rewrite (entitize_process_file_frame _ _ _ _ _ _ _ _ Hp) by congruence.
  by apply Hread.
Qed.

Lemma entitize_outputs_by_base_name_witness :
  ∃ fs', EntitizeIO.main PyInt.int16 Sample.two_parts_args [u "."]
           Sample.two_parts = (0, fs')
    ∧ read_text fs' [u "out"] (u "ch.md") = Some (File (u "3 & 4")).
Proof.
  destruct (EntitizeIO.main PyInt.int16 Sample.two_parts_args [u "."]
              Sample.two_parts) as [code fs'] eqn:Hmain.
  assert (code = 0) as -> by (by vm_compute in Hmain; injection Hmain as <- _).
  exists fs'. split; [reflexivity|].
  destruct (EntitizeLoad.load_entities PyInt.int16 (u "0x26 amp"))
    as [t|] eqn:Hload; [|vm_compute in Hload; discriminate].
  refine (eq_trans
    (entitize_outputs_by_base_name PyInt.int16 Sample.two_parts_args
       [u "."] Sample.two_parts fs' (u "0x26 amp") t
       [([u "one"], u "ch.md"); ([u "zero"], u "ch.md")]
       ([u "two"], u "ch.md") [] (u "3 &amp; 4")
       Hmain eq_refl Hload eq_refl eq_refl _ _) _).
  - repeat constructor; discriminate.
  - constructor.
  - f_equal. f_equal.
    vm_compute in Hload. injection Hload as <-. vm_compute. reflexivity.
Defined.

End StageFacts.

(** ** The pipeline *)

Module PipelineFacts.
Import Merge Files Shape MergeFacts MergeMore StageFacts.

Implicit Types (fs : gmap (list (list N)) (gmap (list N) entry)).
Implicit Types (dir output_dir : list (list N)) (name content : list N).
Implicit Types (t entities : gmap (list N) (list N)).




Section Tools.

Variable int16 : list N → option N.
Variable re_sub : list N → list N → list N → option (list N).
Variable build_main :
  option (list N) → list (list N) → list (list N) →
  gmap (list (list N)) (gmap (list N) entry) →
  N * gmap (list (list N)) (gmap (list N) entry).





(** X21.  Without [-vol], when every volume's input directory is absent and
    the temporary directory holds no markdown file, the pipeline stops after
    the merge step with status 1: nothing is substituted, styled or
    converted. *)
Theorem pipeline_fails_without_merged_files
  (volumes : list (list N * volume_config))
  (styles : option (list (list N * list Customize.pattern_def)))
  (entities_file : list (list N) * list N) (args : BuildBooks.parsed_args)
  (cwd : list (list N)) fs :
  volumes ≠ [] →
  truthy (default [] (BuildBooks.vol args)) = false →
  (∀ name cfg, (name, cfg) ∈ volumes →
     fs !! volume_input_dir name cfg cwd = None
     ∧ ¬ volume_input_dir name cfg cwd `prefix_of` BuildBooks.temp args
     ∧ ¬ volume_input_dir name cfg cwd `prefix_of` BuildBooks.output args) →
  (∀ name, is_Some (read_text fs (BuildBooks.temp args) name) →
           endswith name (u ".md") = false) →
  BuildBooks.main int16 re_sub build_main (Some volumes) styles
    entities_file args cwd fs =
  (1, mkdir_parents (BuildBooks.output args)
        (mkdir_parents (BuildBooks.temp args) fs)).
Proof.
  intros Hne Hvol Habs Hnomd.
  set (obj := BuildBooks.temp args).
  set (fs0 := mkdir_parents (BuildBooks.output args) (mkdir_parents obj fs)).
  assert (E1 : Merge.main (Some volumes)
                 {| Merge.volume := None; Merge.output := Some obj;
                    Merge.input := Some cwd |} cwd fs0 = (0, fs0)).
  { unfold Merge.main. simpl. destruct volumes as [|v0 vs]; [done|].
    rewrite merge_volumes_skip_all; [done|].
    intros name cfg Hin. destruct (Habs name cfg Hin) as (H0 & H1 & H2).
    unfold fs0. by do 2 (apply lookup_mkdir_parents_None; [|done]). }
  assert (E2 : BuildBooks.stage_files None obj fs0 = []).
  { unfold BuildBooks.stage_files.
    destruct (glob_md (default ∅ (fs0 !! obj))) as [|x xs] eqn:Hglob; [done|].
    assert (Hx : x ∈ glob_md (default ∅ (fs0 !! obj)))
      by (rewrite Hglob; by left).
    apply elem_of_glob_md in Hx as [Hsome Hmd].
    rewrite Hnomd in Hmd; [done|].
    assert (Hr : read_text fs0 obj x = default ∅ (fs0 !! obj) !! x).
    { unfold read_text. destruct (fs0 !! obj); [done|].
      simpl. by rewrite lookup_empty. }
    rewrite <- Hr in Hsome. unfold fs0 in Hsome.
    by rewrite !read_text_mkdir_parents in Hsome. }
  unfold BuildBooks.main. cbv zeta. rewrite Hvol.
  fold obj. fold fs0. rewrite E1. cbv beta iota.
  change (negb (0 =? 0)) with false. cbv iota.
  by rewrite E2.
Qed.

End Tools.


Lemma pipeline_fails_without_merged_files_witness :
  fst (BuildBooks.main PyInt.int16 PyRe.re_sub Sample.no_build
         (Some [(u "volume-002", Sample.volume_two)]) (Some Sample.ab_to_Z)
         ([u "conf"], u "basic.nam") Sample.all_volumes [u "book"]
         Sample.library) = 1.
Proof.
  rewrite (pipeline_fails_without_merged_files PyInt.int16 PyRe.re_sub
             Sample.no_build [(u "volume-002", Sample.volume_two)]).
  - reflexivity.
  - discriminate.
  - reflexivity.
  - intros name cfg Hin. apply list_elem_of_singleton in Hin.
    injection Hin as -> ->. split; [|split].
    + unfold Sample.library. rewrite lookup_insert_ne by discriminate.
      apply lookup_singleton_ne. discriminate.
    + intros [k Hk]. discriminate Hk.
    + intros [k Hk]. discriminate Hk.
  - intros name [e He]. unfold read_text, Sample.library in He.
    rewrite lookup_insert_ne in He by discriminate.
    rewrite lookup_singleton_ne in He by discriminate. discriminate.
Defined.

End PipelineFacts.
